(** * The k-mer pore model of UNCALLED ([src/pore_model.hpp])

    A shallow embedding of [PoreModel<KLEN>]: the loader that fills the
    per-k-mer tables from a model file, the match scorer
    [event_match_prob], and the normalizer ([get_norm_params],
    [normalize]).

    The C++ code computes on [float] and, through [pow], [log], [sqrt]
    and [M_PI], on [double].  The embedding keeps the two types apart and
    takes their operations from a class, so that every definition below
    is the source expression with its implicit conversions written out.
    Two instances are given: exact real arithmetic, in which the
    statistical identities are proved, and IEEE 754 binary32/binary64
    with round-to-nearest-even, in which the scorer and the normalizer
    can be evaluated. *)

From Stdlib Require Import ZArith Reals Lra Lia Bool.
From Stdlib Require Import Strings.Ascii Strings.String Numbers.DecimalString.
From Stdlib Require Import Floats.SpecFloat.
From stdpp Require Import base option list.

Set Default Proof Using "Type".

(** ** Arithmetic of the target language *)

(** [float] and [double] with the operations the source uses.  An integer
    operand of a [float] operator ([2*lv_stdv], [x /= events.size()],
    [norm.scale == 0], [= -1]) is converted with [f_of_int].  [pow] is
    only ever applied to a [float] difference and the literal [2]; its
    result is a [double], so the enclosing expression is evaluated in
    [double] and converted back with [d2f] where it is stored in a
    [float].  [fsqrt] is [sqrt] of a [float] whose result is stored in
    a [float]. *)
Class Arith : Type := {
  float : Type;
  double : Type;
  f_of_int : Z -> float;
  fadd : float -> float -> float;
  fsub : float -> float -> float;
  fmul : float -> float -> float;
  fdiv : float -> float -> float;
  fsqrt : float -> float;
  feq : float -> float -> bool;
  f2d : float -> double;
  d2f : double -> float;
  dadd : double -> double -> double;
  dsub : double -> double -> double;
  dmul : double -> double -> double;
  ddiv : double -> double -> double;
  dneg : double -> double;
  dpow : double -> Z -> double;
  dsqrt : double -> double
}.

(** What the loader needs on top: [log], the constant [M_PI], and the
    conversion at the end of [operator>>] into a [float].  [f_of_string]
    is applied to the characters the extraction has accumulated and is
    [None] when the conversion fails: the characters are not a complete
    number, or the number is outside the range of [float].
    [f_on_failure] is what a failed conversion leaves in the variable:
    zero for characters that are not a number, the largest finite value
    of the sign for a number out of range. *)
Class LoaderArith (A : Arith) : Type := {
  dlog : double -> double;
  M_PI : double;
  f_of_string : string -> option float;
  f_on_failure : string -> float
}.

(** *** Exact real arithmetic *)

Module RealArith.

Definition Reqb (x y : R) : bool := if Req_dec_T x y then true else false.

(** Decimal text as [strtof] converts it when it takes the whole text:
    an optional sign, digits with an optional point among them (at least
    one digit), and an optional exponent [e] or [E] with an optional sign
    and at least one digit.  The value is exact; there is no range. *)
Definition digit_of (c : ascii) : option Z :=
  let n := Z.of_N (N_of_ascii c) in
  if ((48 <=? n) && (n <=? 57))%Z then Some (n - 48)%Z else None.

(** Leading digits appended to [acc], and the rest. *)
Fixpoint digits (s : string) (acc : Z) : Z * string :=
  match s with
  | EmptyString => (acc, EmptyString)
  | String c s' =>
      match digit_of c with
      | Some d => digits s' (10 * acc + d)%Z
      | None => (acc, s)
      end
  end.

Definition sign_of (s : string) : bool * string :=
  match s with
  | String "-" s' => (true, s')
  | String "+" s' => (false, s')
  | _ => (false, s)
  end.

(** The digits of the mantissa as an integer, the number of digits after
    the point, and the rest. *)
Definition mantissa (s : string) : option (Z * nat * string) :=
  let '(ip, r) := digits s 0%Z in
  let ni := (String.length s - String.length r)%nat in
  match r with
  | String "." f =>
      let '(m, r') := digits f ip in
      let nf := (String.length f - String.length r')%nat in
      if (ni + nf =? 0)%nat then None else Some (m, nf, r')
  | _ => if (ni =? 0)%nat then None else Some (ip, 0%nat, r)
  end.

Definition exponent (s : string) : option Z :=
  match s with
  | EmptyString => Some 0%Z
  | String c s' =>
      if Ascii.eqb c "e" || Ascii.eqb c "E" then
        let '(neg, d) := sign_of s' in
        match d with
        | EmptyString => None
        | String _ _ =>
            match digits d 0%Z with
            | (e, EmptyString) => Some (if neg then (- e)%Z else e)
            | _ => None
            end
        end
      else None
  end.

Definition decimal (s : string) : option (Z * nat * Z) :=
  let '(neg, u) := sign_of s in
  match mantissa u with
  | Some (m, k, r) =>
      match exponent r with
      | Some e => Some (if neg then (- m)%Z else m, k, e)
      | None => None
      end
  | None => None
  end.

Definition R_of_string (s : string) : option R :=
  match decimal s with
  | Some (m, k, e) => Some (IZR m / 10 ^ k * powerRZ 10 e)%R
  | None => None
  end.

#[export] Instance real_arith : Arith := {|
  float := R;
  double := R;
  f_of_int := IZR;
  fadd := Rplus;
  fsub := Rminus;
  fmul := Rmult;
  fdiv := Rdiv;
  fsqrt := sqrt;
  feq := Reqb;
  f2d := fun x => x;
  d2f := fun x => x;
  dadd := Rplus;
  dsub := Rminus;
  dmul := Rmult;
  ddiv := Rdiv;
  dneg := Ropp;
  dpow := fun x n => (x ^ Z.to_nat n)%R;
  dsqrt := sqrt
|}.

#[global] Instance real_loader : LoaderArith real_arith := {|
  dlog := ln;
  M_PI := PI;
  f_of_string := R_of_string;
  f_on_failure := fun _ => 0%R
|}.

End RealArith.

(** *** IEEE 754 binary32 and binary64, round to nearest even *)

Module IEEE.

Definition prec32 : Z := 24.
Definition emax32 : Z := 128.
Definition prec64 : Z := 53.
Definition emax64 : Z := 1024.

(** Rounding a finite value into the format [(prec, emax)]. *)
Definition round_to (prec emax : Z) (x : spec_float) : spec_float :=
  match x with
  | S754_finite s m e => binary_normalize prec emax (cond_Zopp s (Zpos m)) e s
  | _ => x
  end.

Definition ieee_pow (x : spec_float) (n : Z) : spec_float :=
  Z.iter n (fun acc => SFmul prec64 emax64 acc x) (binary_normalize prec64 emax64 1 0 false).

#[export] Instance ieee_arith : Arith := {|
  float := spec_float;
  double := spec_float;
  f_of_int := fun z => binary_normalize prec32 emax32 z 0 false;
  fadd := SFadd prec32 emax32;
  fsub := SFsub prec32 emax32;
  fmul := SFmul prec32 emax32;
  fdiv := SFdiv prec32 emax32;
  fsqrt := SFsqrt prec32 emax32;
  feq := SFeqb;
  f2d := round_to prec64 emax64;
  d2f := round_to prec32 emax32;
  dadd := SFadd prec64 emax64;
  dsub := SFsub prec64 emax64;
  dmul := SFmul prec64 emax64;
  ddiv := SFdiv prec64 emax64;
  dneg := SFopp;
  dpow := ieee_pow;
  dsqrt := SFsqrt prec64 emax64
|}.

End IEEE.

(** ** Data model *)

Section PoreModel.
Context {A : Arith}.

(** [struct NormParams { float shift, scale; }] *)
Record NormParams : Type := mkNormParams {
  shift : float;
  scale : float
}.

(** [Event] comes from [event_detector.hpp]; the model reads and writes
    its [mean] member only.  The remaining members are kept as one
    opaque component. *)
Context {EventRest : Type}.

Record Event : Type := mkEvent {
  mean : float;
  ev_rest : EventRest
}.

(** The data members of [PoreModel<KLEN>].  [u8] and [u16] members are
    integers in their range. *)
Record PoreModel : Type := mkPoreModel {
  lv_means_ : list float;
  lv_vars_x2_ : list float;
  lognorm_denoms_ : list float;
  lambda_ : float;
  model_mean_ : float;
  model_stdv_ : float;
  k_ : Z;
  kmer_count_ : Z;
  loaded_ : bool;
  complement_ : bool;
  rev_comp_ids_ : list Z
}.

(** [PoreModel()] *)
Definition PoreModel_default (raw : PoreModel) : PoreModel :=
  {| lv_means_ := []; lv_vars_x2_ := []; lognorm_denoms_ := [];
     lambda_ := lambda_ raw; model_mean_ := model_mean_ raw;
     model_stdv_ := model_stdv_ raw;
     k_ := 0; kmer_count_ := kmer_count_ raw;
     loaded_ := false; complement_ := complement_ raw;
     rev_comp_ids_ := [] |}.

Definition is_loaded (m : PoreModel) : bool := loaded_ m.

Definition kmer_len (m : PoreModel) : Z := k_ m.

(** ** Match scorer *)

(** [v[i]] on a [std::vector]: defined inside the vector only. *)
Definition at_ (v : list float) (i : Z) : option float :=
  if (i <? 0)%Z then None else v !! Z.to_nat i.

(** [float event_match_prob(float e, u16 k_id)] *)
Definition event_match_prob (m : PoreModel) (e : float) (k_id : Z) : option float :=
  mu ← at_ (lv_means_ m) k_id;
  var ← at_ (lv_vars_x2_ m) k_id;
  den ← at_ (lognorm_denoms_ m) k_id;
  Some (d2f (dsub (ddiv (dneg (dpow (f2d (fsub e mu)) 2)) (f2d var)) (f2d den))).

(** [float event_match_prob(const Event &e, u16 k_id)] *)
Definition event_match_prob_event (m : PoreModel) (e : Event) (k_id : Z) : option float :=
  event_match_prob m (mean e) k_id.

(** ** Normalizer *)

(** [x /= events.size()] *)
Definition size_f {T : Type} (events : list T) : float :=
  f_of_int (Z.of_nat (length events)).

(** [NormParams get_norm_params(const std::vector<Event> &events)] *)
Definition get_norm_params_events (m : PoreModel) (events : list Event) : NormParams :=
  let events_mean := foldl (fun acc e => fadd acc (mean e)) (f_of_int 0) events in
  let events_mean := fdiv events_mean (size_f events) in
  let events_stdv :=
    foldl (fun acc e => d2f (dadd (f2d acc) (dpow (f2d (fsub (mean e) events_mean)) 2)))
          (f_of_int 0) events in
  let events_stdv := fsqrt (fdiv events_stdv (size_f events)) in
  let params_scale := fdiv (model_stdv_ m) events_stdv in
  let params_shift := fsub (model_mean_ m) (fmul params_scale events_mean) in
  {| shift := params_shift; scale := params_scale |}.

(** [NormParams get_norm_params(const std::vector<float> &events)] *)
Definition get_norm_params (m : PoreModel) (events : list float) : NormParams :=
  let events_mean := foldl (fun acc e => fadd acc e) (f_of_int 0) events in
  let events_mean := fdiv events_mean (size_f events) in
  let events_stdv :=
    foldl (fun acc e => d2f (dadd (f2d acc) (dpow (f2d (fsub e events_mean)) 2)))
          (f_of_int 0) events in
  let events_stdv := fsqrt (fdiv events_stdv (size_f events)) in
  let params_scale := fdiv (model_stdv_ m) events_stdv in
  let params_shift := fsub (model_mean_ m) (fmul params_scale events_mean) in
  {| shift := params_shift; scale := params_scale |}.

(** The default argument [norm={0,0}]. *)
Definition norm_default : NormParams :=
  {| shift := f_of_int 0; scale := f_of_int 0 |}.

(** One step of [for (size_t i = 0; i < events.size(); i++)]: the
    element at [i] is overwritten in place. *)
Definition normalize_events_step (norm : NormParams) (events : list Event) (i : nat) : list Event :=
  match events !! i with
  | Some e =>
      <[ i := {| mean := fadd (fmul (scale norm) (mean e)) (shift norm);
                 ev_rest := ev_rest e |} ]> events
  | None => events
  end.

(** [void normalize(std::vector<Event> &events, NormParams norm={0,0})];
    the result is the vector after the call. *)
Definition normalize_events (m : PoreModel) (events : list Event) (norm : NormParams) : list Event :=
  let norm := if feq (scale norm) (f_of_int 0) then get_norm_params_events m events else norm in
  foldl (normalize_events_step norm) events (seq 0 (length events)).

Definition normalize_step (norm : NormParams) (events : list float) (i : nat) : list float :=
  match events !! i with
  | Some x => <[ i := fadd (fmul (scale norm) x) (shift norm) ]> events
  | None => events
  end.

(** [void normalize(std::vector<float> &events, NormParams norm={0,0})] *)
Definition normalize (m : PoreModel) (events : list float) (norm : NormParams) : list float :=
  let norm := if feq (scale norm) (f_of_int 0) then get_norm_params m events else norm in
  foldl (normalize_step norm) events (seq 0 (length events)).

End PoreModel.

Arguments NormParams : clear implicits.
Arguments Event : clear implicits.
Arguments PoreModel : clear implicits.

(** ** The input stream *)

(** [std::ifstream] as the loader uses it: the unread characters and the
    two state bits the code can observe.  A file that cannot be opened
    gives a stream with [failbit] set and nothing to read. *)
Module Stream.

Record ifstream : Type := mkStream {
  buf : string;
  eofbit : bool;
  failbit : bool
}.

Definition good (s : ifstream) : bool := negb (eofbit s) && negb (failbit s).

Definition eof (s : ifstream) : bool := eofbit s.

Definition set_fail (s : ifstream) : ifstream :=
  {| buf := buf s; eofbit := eofbit s; failbit := true |}.

(** [std::ifstream model_in(model_fname)]: [file] is the content found
    under the path, [None] when the path cannot be opened. *)
Definition open (file : option string) : ifstream :=
  match file with
  | Some text => {| buf := text; eofbit := false; failbit := false |}
  | None => {| buf := EmptyString; eofbit := false; failbit := true |}
  end.

Definition newline : ascii := Ascii.ascii_of_nat 10.
Definition tab : ascii := Ascii.ascii_of_nat 9.
Definition space : ascii := Ascii.ascii_of_nat 32.

(** [std::isspace] in the "C" locale. *)
Definition isspace (c : ascii) : bool :=
  let n := N_of_ascii c in
  (n =? 32)%N || ((9 <=? n)%N && (n <=? 13)%N).

(** Characters up to the first newline; [Some rest] when the newline
    was found (it is consumed), [None] at end of input. *)
Fixpoint take_line (s : string) : string * option string :=
  match s with
  | EmptyString => (EmptyString, None)
  | String c s' =>
      if Ascii.eqb c newline then (EmptyString, Some s')
      else let '(l, r) := take_line s' in (String c l, r)
  end.

(** [std::getline(in, str)] *)
Definition getline (s : ifstream) (str : string) : ifstream * string :=
  if good s then
    match take_line (buf s) with
    | (l, Some rest) => ({| buf := rest; eofbit := false; failbit := false |}, l)
    | (l, None) =>
        ({| buf := EmptyString; eofbit := true;
            failbit := match l with EmptyString => true | _ => false end |}, l)
    end
  else (set_fail s, str).

Fixpoint skipws (s : string) : string :=
  match s with
  | EmptyString => EmptyString
  | String c s' => if isspace c then skipws s' else s
  end.

(** The characters of one field, the rest, and whether the end of the
    input was reached while reading it. *)
Fixpoint take_token (s : string) : string * string * bool :=
  match s with
  | EmptyString => (EmptyString, EmptyString, true)
  | String c s' =>
      if isspace c then (EmptyString, s, false)
      else let '(t, r, e) := take_token s' in (String c t, r, e)
  end.

(** The sentry of a formatted input operation: fails on a stream that
    is not good, else skips leading white space and fails at the end
    of the input. *)
Definition sentry (s : ifstream) : ifstream * bool :=
  if good s then
    match skipws (buf s) with
    | EmptyString => ({| buf := EmptyString; eofbit := true; failbit := true |}, false)
    | b => ({| buf := b; eofbit := false; failbit := false |}, true)
    end
  else (set_fail s, false).

(** [in >> str] for a [std::string]; [str] keeps its value when
    nothing is extracted. *)
Definition extract_string (s : ifstream) (str : string) : ifstream * string :=
  let '(s1, ok) := sentry s in
  if ok then
    let '(t, r, e) := take_token (buf s1) in
    ({| buf := r; eofbit := e; failbit := false |}, t)
  else (s1, str).

Definition is_digit (c : ascii) : bool :=
  let n := N_of_ascii c in ((48 <=? n) && (n <=? 57))%N.

Definition is_sign (c : ascii) : bool := Ascii.eqb c "+" || Ascii.eqb c "-".

Definition is_exponent (c : ascii) : bool := Ascii.eqb c "e" || Ascii.eqb c "E".

Definition taken (c : ascii) (p : string * string) : string * string :=
  (String c (fst p), snd p).

(** The characters [operator>>] accumulates for a floating-point number
    after the sign, as [std::num_get] does in the "C" locale
    (libstdc++): digits; one decimal point, before any exponent; one [e]
    or [E], once a digit has been seen, with a sign directly after it.
    It stops in front of the first character that cannot go on the
    number, and returns the characters taken and the rest. *)
Fixpoint scan_digits (s : string) (mantissa dec sci : bool) : string * string :=
  match s with
  | EmptyString => (EmptyString, EmptyString)
  | String c s' =>
      if is_digit c then taken c (scan_digits s' true dec sci)
      else if Ascii.eqb c "." && negb dec && negb sci
      then taken c (scan_digits s' mantissa true sci)
      else if is_exponent c && negb sci && mantissa then
        match s' with
        | EmptyString => (String c EmptyString, EmptyString)
        | String d s'' =>
            if is_sign d then taken c (taken d (scan_digits s'' mantissa dec true))
            else taken c (scan_digits s' mantissa dec true)
        end
      else (EmptyString, s)
  end.

Definition scan_float (s : string) : string * string :=
  match s with
  | EmptyString => (EmptyString, EmptyString)
  | String c s' =>
      if is_sign c then taken c (scan_digits s' false false false)
      else scan_digits s false false false
  end.

(** Text that the scan takes to its end. *)
Definition float_text (t : string) : bool :=
  match snd (scan_float t) with
  | EmptyString => true
  | String _ _ => false
  end.

(** [in >> x] for a [float]: the characters that can go on a number are
    taken, [eofbit] is set when they run up to the end of the input, and
    what was taken is converted; a failed conversion sets [failbit]. *)
Definition extract_float `{LoaderArith} (s : ifstream) (x : float) : ifstream * float :=
  let '(s1, ok) := sentry s in
  if ok then
    let '(t, r) := scan_float (buf s1) in
    let e := match r with EmptyString => true | String _ _ => false end in
    match f_of_string t with
    | Some v => ({| buf := r; eofbit := e; failbit := false |}, v)
    | None => ({| buf := r; eofbit := e; failbit := true |}, f_on_failure t)
    end
  else (s1, x).

End Stream.

(** ** The loader *)

(** The k-mer codec of [bp.hpp], which the loader calls but which is not
    part of this file: [kmer_count<KLEN>()], [str_to_kmer<KLEN>(s)] and
    [kmer_comp<KLEN>(kmer)], each taking the template argument first. *)
Class KmerCodec : Type := {
  kmer_count : Z -> Z;
  str_to_kmer : Z -> string -> Z;
  kmer_comp : Z -> Z -> Z
}.

Definition to_u8 (z : Z) : Z := z mod 256.
Definition to_u16 (z : Z) : Z := z mod 65536.

Section Loader.
Context {A : Arith} {L : LoaderArith A} {C : KmerCodec}.
Import Stream.

(** The template argument. *)
Variable KLEN : Z.

(** The local variables a row is read into. *)
Record Row : Type := mkRow {
  kmer_str : string;
  lv_mean : float;
  lv_stdv : float;
  sd_mean : float;
  sd_stdv : float;
  lambda : float;
  weight : float
}.

(** The header loop [for (u8 i = 0; i < header.size(); i++)].  The
    counter is a [u8]; each call is one test of the loop condition. *)
Fixpoint count_cols (fuel : nat) (header : string) (i num_cols : Z) (prev_ws : bool)
  : option Z :=
  match fuel with
  | O => None
  | S fuel' =>
      if (i <? Z.of_nat (String.length header))%Z then
        match String.get (Z.to_nat i) header with
        | Some c =>
            if Ascii.eqb c space || Ascii.eqb c tab
            then count_cols fuel' header (to_u8 (i + 1)) num_cols true
            else count_cols fuel' header (to_u8 (i + 1))
                   (if prev_ws then to_u8 (num_cols + 1) else num_cols) false
        | None => None
        end
      else Some num_cols
  end.

(** The four-way read of one row (lines 75-89 and again 133-147); the
    result carries the stream, the locals and the value left in
    [lambda_]. *)
Definition read_row (num_cols : Z) (s : ifstream) (v : Row) : ifstream * Row * float :=
  let has_lambda := (num_cols >=? 7)%Z in
  if has_lambda then
    let '(s, a) := extract_string s (kmer_str v) in
    let '(s, b) := extract_float s (lv_mean v) in
    let '(s, c) := extract_float s (lv_stdv v) in
    let '(s, d) := extract_float s (sd_mean v) in
    let '(s, e) := extract_float s (sd_stdv v) in
    let '(s, f) := extract_float s (lambda v) in
    let '(s, g) := extract_float s (weight v) in
    (s, mkRow a b c d e f g, f)
  else if (num_cols =? 3)%Z then
    let '(s, a) := extract_string s (kmer_str v) in
    let '(s, b) := extract_float s (lv_mean v) in
    let '(s, c) := extract_float s (lv_stdv v) in
    (s, mkRow a b c (sd_mean v) (sd_stdv v) (lambda v) (weight v), f_of_int (-1))
  else if (num_cols =? 4)%Z then
    let '(s, a) := extract_string s (kmer_str v) in
    let '(s, b) := extract_float s (lv_mean v) in
    let '(s, c) := extract_float s (lv_stdv v) in
    let '(s, d) := extract_float s (sd_mean v) in
    (s, mkRow a b c d (sd_stdv v) (lambda v) (weight v), f_of_int (-1))
  else
    let '(s, a) := extract_string s (kmer_str v) in
    let '(s, b) := extract_float s (lv_mean v) in
    let '(s, c) := extract_float s (lv_stdv v) in
    let '(s, d) := extract_float s (sd_mean v) in
    let '(s, e) := extract_float s (sd_stdv v) in
    let '(s, g) := extract_float s (weight v) in
    (s, mkRow a b c d e (lambda v) g, f_of_int (-1)).

(** The k-mer id of the row in hand (lines 110-115). *)
Definition row_kmer (complement : bool) (kmer_str : string) : Z :=
  let kmer := to_u16 (str_to_kmer KLEN kmer_str) in
  if complement then to_u16 (kmer_comp KLEN kmer) else kmer.

(** [kmer < 0 || kmer >= kmer_count_] *)
Definition kmer_invalid (count kmer : Z) : bool :=
  (kmer <? 0)%Z || (kmer >=? count)%Z.

(** What [std::cerr << "Error: kmer '" << kmer << "' is invalid\n"]
    writes. *)
Definition diagnostic (kmer : Z) : string :=
  ("Error: kmer '" ++ NilZero.string_of_int (Z.to_int kmer)
     ++ "' is invalid" ++ String newline EmptyString)%string.

(** The tables and the running sum while the file is read, with what
    has been written to [std::cerr]. *)
Record Tables : Type := mkTables {
  t_means : list float;
  t_vars_x2 : list float;
  t_lognorm_denoms : list float;
  t_mean_sum : float;
  t_cerr : list string
}.

(** Lines 110-130: decode the id, check it and store the row.  Of the
    locals only [kmer_str], [lv_mean] and [lv_stdv] are used. *)
Definition store_row (count : Z) (complement : bool) (t : Tables)
    (kmer_str : string) (lv_mean lv_stdv : float) : Tables :=
  let kmer := row_kmer complement kmer_str in
  if kmer_invalid count kmer then
    {| t_means := t_means t; t_vars_x2 := t_vars_x2 t;
       t_lognorm_denoms := t_lognorm_denoms t; t_mean_sum := t_mean_sum t;
       t_cerr := t_cerr t ++ [diagnostic kmer] |}
  else
    let var := fmul (fmul (f_of_int 2) lv_stdv) lv_stdv in
    {| t_means := <[ Z.to_nat kmer := lv_mean ]> (t_means t);
       t_vars_x2 := <[ Z.to_nat kmer := var ]> (t_vars_x2 t);
       t_lognorm_denoms :=
         <[ Z.to_nat kmer := d2f (dlog (dsqrt (dmul M_PI (f2d var)))) ]> (t_lognorm_denoms t);
       t_mean_sum := fadd (t_mean_sum t) lv_mean;
       t_cerr := t_cerr t |}.

(** [do { ... } while (!model_in.eof())]: store the row in hand, read
    the next one, test the stream. *)
Fixpoint read_loop (fuel : nat) (num_cols count : Z) (complement : bool)
    (s : ifstream) (v : Row) (lam : float) (t : Tables)
  : option (Tables * float) :=
  match fuel with
  | O => None
  | S fuel' =>
      let t := store_row count complement t (kmer_str v) (lv_mean v) (lv_stdv v) in
      let '(s, v, lam) := read_row num_cols s v in
      if eof s then Some (t, lam)
      else read_loop fuel' num_cols count complement s v lam t
  end.

(** Lines 94-105: the vectors after [resize] and the sentinel slot. *)
Definition init_tables (count : Z) : Tables :=
  let n := Z.to_nat count in
  let fresh := <[ n := f_of_int (-1) ]> (replicate (n + 1) (f_of_int 0)) in
  {| t_means := fresh; t_vars_x2 := fresh; t_lognorm_denoms := fresh;
     t_mean_sum := f_of_int 0; t_cerr := [] |}.

(** Lines 154-156:
    [for (u16 kmer = 0; kmer < kmer_count_; kmer++) model_stdv_ += pow(...)] *)
Definition sum_sq_dev (means : list float) (model_mean : float) (count : Z) : float :=
  foldl (fun acc kmer =>
           match means !! kmer with
           | Some x => d2f (dadd (f2d acc) (dpow (f2d (fsub x model_mean)) 2))
           | None => acc
           end)
        (f_of_int 0) (seq 0 (Z.to_nat count)).

(** Lines 152-159: the aggregates, and the object as the constructor
    leaves it.  [k_] and [complement_] are not assigned anywhere in the
    constructor and keep what the storage held. *)
Definition finish (raw : PoreModel A) (count : Z) (t : Tables) (lam : float) : PoreModel A :=
  let model_mean := fdiv (t_mean_sum t) (f_of_int count) in
  let model_stdv := sum_sq_dev (t_means t) model_mean count in
  let model_stdv := fsqrt (fdiv model_stdv (f_of_int count)) in
  {| lv_means_ := t_means t;
     lv_vars_x2_ := t_vars_x2 t;
     lognorm_denoms_ := t_lognorm_denoms t;
     lambda_ := lam;
     model_mean_ := model_mean;
     model_stdv_ := model_stdv;
     k_ := k_ raw;
     kmer_count_ := count;
     loaded_ := true;
     complement_ := complement_ raw;
     rev_comp_ids_ := replicate (Z.to_nat count) 0%Z |}.

(** [PoreModel(std::string model_fname, bool complement)].  [file] is
    what opening [model_fname] finds; [raw] is the object before the
    constructor body runs and [uninit] the local variables before the
    first read, both holding indeterminate scalars.  The result is the
    constructed object and the text sent to [std::cerr]; [None] when
    [fuel] tests of a loop condition do not suffice. *)
Definition PoreModel_load (raw : PoreModel A) (uninit : Row) (fuel : nat)
    (file : option string) (complement : bool) : option (PoreModel A * list string) :=
  let count := to_u16 (kmer_count KLEN) in
  let model_in := open file in
  let '(model_in, header) := getline model_in EmptyString in
  num_cols ← count_cols fuel header 0 0 true;
  let v := mkRow EmptyString (lv_mean uninit) (lv_stdv uninit) (sd_mean uninit)
             (sd_stdv uninit) (lambda uninit) (weight uninit) in
  let '(model_in, v, lam) := read_row num_cols model_in v in
  '(t, lam) ← read_loop fuel num_cols count complement model_in v lam (init_tables count);
  Some (finish raw count t lam, t_cerr t).

End Loader.

Arguments Row : clear implicits.
Arguments Tables : clear implicits.

(** ** Auxiliary definitions for the statements *)

(** The three tables have a slot for every id and the sentinel slot. *)
Definition tables_sized {A : Arith} (m : PoreModel A) : Prop :=
  length (lv_means_ m) = (Z.to_nat (kmer_count_ m) + 1)%nat /\
  length (lv_vars_x2_ m) = (Z.to_nat (kmer_count_ m) + 1)%nat /\
  length (lognorm_denoms_ m) = (Z.to_nat (kmer_count_ m) + 1)%nat.

(** The affine map [x -> scale * x + shift] that [normalize] applies. *)
Definition affine {A : Arith} (norm : NormParams A) (x : float) : float :=
  fadd (fmul (scale norm) x) (shift norm).

Definition affine_event {A : Arith} {EventRest : Type} (norm : NormParams A)
    (e : Event A EventRest) : Event A EventRest :=
  {| mean := affine norm (mean e); ev_rest := ev_rest e |}.

(** The two accumulations of [get_norm_params] on their own: the mean
    and the deviation of a batch as the code computes them, summing from
    left to right in [float] and [double]. *)
Definition batch_mean {A : Arith} (batch : list float) : float :=
  fdiv (foldl fadd (f_of_int 0) batch) (f_of_int (Z.of_nat (length batch))).

Definition batch_stdev {A : Arith} (batch : list float) : float :=
  fsqrt (fdiv (foldl (fun acc x =>
                        d2f (dadd (f2d acc) (dpow (f2d (fsub x (batch_mean batch))) 2)))
                 (f_of_int 0) batch)
           (f_of_int (Z.of_nat (length batch)))).

(** The mean and the population standard deviation of a batch in the
    specification's words, over the reals. *)
Module Stats.

Definition sum (l : list R) : R := fold_right Rplus 0%R l.

Definition arith_mean (l : list R) : R := (sum l / INR (length l))%R.

Definition pop_stdev (l : list R) : R :=
  sqrt (sum (map (fun x => (x - arith_mean l) ^ 2)%R l) / INR (length l)).

End Stats.

(** Sample objects on which the statements are exercised. *)
Module Sample.
Import IEEE.

Definition f32 (z : Z) : spec_float := binary_normalize prec32 emax32 z 0 false.

(** One k-mer with mean 0, doubled variance 1, log denominator 1. *)
Definition unit_model : PoreModel ieee_arith :=
  {| lv_means_ := [f32 0; f32 (-1)];
     lv_vars_x2_ := [f32 1; f32 (-1)];
     lognorm_denoms_ := [f32 1; f32 (-1)];
     lambda_ := f32 (-1);
     model_mean_ := f32 90;
     model_stdv_ := f32 12;
     k_ := 0; kmer_count_ := 1;
     loaded_ := true; complement_ := false;
     rev_comp_ids_ := [0%Z] |}.

Definition batch4 : list spec_float := [f32 1; f32 2; f32 3; f32 4].

(** Two neighbouring [float] values at [2^24], where the spacing of
    binary32 is 2: their sum is not a [float]. *)
Definition wide_batch : list spec_float := [f32 16777216; f32 16777218].

(** [m * 2^e] as a binary32 value. *)
Definition f32_scaled (m e : Z) : spec_float := binary_normalize prec32 emax32 m e false.

(** One k-mer with level mean 90.5, level deviation 2 (doubled variance
    8) and log denominator 13523155 * 2^-23, the [float] nearest to
    [log(sqrt(M_PI * 8))], about 1.612. *)
Definition level_model : PoreModel ieee_arith :=
  {| lv_means_ := [f32_scaled 181 (-1); f32 (-1)];
     lv_vars_x2_ := [f32 8; f32 (-1)];
     lognorm_denoms_ := [f32_scaled 13523155 (-23); f32 (-1)];
     lambda_ := f32 (-1);
     model_mean_ := f32 90;
     model_stdv_ := f32 12;
     k_ := 0; kmer_count_ := 1;
     loaded_ := true; complement_ := false;
     rev_comp_ids_ := [0%Z] |}.

(** Two observations just above the level mean: [90.5 + 2^-17] and
    [90.5 + 2^-16]. *)
Definition near1 : spec_float := f32_scaled (181 * 2 ^ 16 + 1) (-17).
Definition near2 : spec_float := f32_scaled (181 * 2 ^ 15 + 1) (-16).

Definition events4 : list (Event ieee_arith nat) :=
  [mkEvent (f32 1) 10%nat; mkEvent (f32 2) 11%nat; mkEvent (f32 3) 12%nat; mkEvent (f32 4) 13%nat].

Definition real_model : PoreModel RealArith.real_arith :=
  @mkPoreModel RealArith.real_arith
    [90; -1]%R [2; -1]%R [1; -1]%R (-1)%R 90%R 12%R 0 1 true false [0%Z].

End Sample.

(** ** Model files as text *)

(** A model file in the shape the loader is written for: a header line,
    then one line per row, its fields separated by a tab and the line
    closed by a newline. *)
Module ModelFile.
Import Stream.

Record FileRow : Type := mkFileRow {
  fr_kmer : string;
  fr_mean : string;
  fr_stdv : string;
  fr_more : list string
}.

Definition render_fields (fields : list string) (rest : string) : string :=
  fold_right (fun t acc => String tab (t ++ acc)) rest fields.

Definition render_row (r : FileRow) (rest : string) : string :=
  (fr_kmer r
     ++ render_fields (fr_mean r :: fr_stdv r :: fr_more r) (String newline rest))%string.

Definition render_rows (rows : list FileRow) : string :=
  fold_right render_row EmptyString rows.

Definition render (header : string) (rows : list FileRow) : string :=
  (header ++ String newline (render_rows rows))%string.

Fixpoint no_space (t : string) : bool :=
  match t with
  | EmptyString => true
  | String c t' => negb (isspace c) && no_space t'
  end.

(** A field: at least one character, none of them white space. *)
Definition token_ok (t : string) : bool :=
  match t with
  | EmptyString => false
  | String _ _ => no_space t
  end.

Fixpoint no_newline (t : string) : bool :=
  match t with
  | EmptyString => true
  | String c t' => negb (Ascii.eqb c newline) && no_newline t'
  end.

(** A header line that the [u8] counter of the header loop can walk. *)
Definition header_ok (header : string) : bool :=
  no_newline header && (String.length header <=? 255)%nat.

(** The header loop by recursion on the characters. *)
Fixpoint columns (header : string) (num_cols : Z) (prev_ws : bool) : Z :=
  match header with
  | EmptyString => num_cols
  | String c h =>
      if Ascii.eqb c space || Ascii.eqb c tab
      then columns h num_cols true
      else columns h (if prev_ws then to_u8 (num_cols + 1) else num_cols) false
  end.

(** How many fields a row has after [kmer], [level_mean] and
    [level_stdv] under each layout. *)
Definition more_fields (num_cols : Z) : nat :=
  if (num_cols >=? 7)%Z then 4
  else if (num_cols =? 3)%Z then 0
  else if (num_cols =? 4)%Z then 1
  else 3.

Section Rows.
Context {A : Arith} {L : LoaderArith A} {C : KmerCodec}.
Variable KLEN : Z.

(** A numeric field: text that [operator>>] takes to its end and
    converts. *)
Definition numeric (t : string) : bool :=
  token_ok t && float_text t && bool_decide (is_Some (f_of_string t)).

Definition row_ok (num_cols : Z) (r : FileRow) : bool :=
  token_ok (fr_kmer r) && numeric (fr_mean r) && numeric (fr_stdv r)
  && (length (fr_more r) =? more_fields num_cols)%nat
  && forallb numeric (fr_more r).

(** The value [operator>>] stores for a field. *)
Definition field_value (t : string) : float :=
  match f_of_string t with
  | Some v => v
  | None => f_of_int 0
  end.

Definition store_file_row (count : Z) (complement : bool) (t : Tables A) (r : FileRow)
  : Tables A :=
  store_row KLEN count complement t
    (fr_kmer r) (field_value (fr_mean r)) (field_value (fr_stdv r)).

Definition store_rows (count : Z) (complement : bool) (t : Tables A)
    (rows : list FileRow) : Tables A :=
  foldl (store_file_row count complement) t rows.

Definition row_invalid (count : Z) (complement : bool) (r : FileRow) : bool :=
  kmer_invalid count (row_kmer KLEN complement (fr_kmer r)).

(** The level means of the rows that are stored, in file order. *)
Definition stored_means (count : Z) (complement : bool) (rows : list FileRow)
  : list float :=
  map (fun r => field_value (fr_mean r))
      (filter (fun r => row_invalid count complement r = false) rows).

End Rows.

End ModelFile.

(** Modelled from the spec: the k-mer codec ([bp.hpp]) is not among the
    sources.  The specification describes [count(k)] as [4^k] for the
    4-symbol nucleotide alphabet, [encode] as the map from a k-mer to its
    dense integer id, and the complement as substituting each symbol with
    its paired symbol and reversing the order.  The sample below reads a
    k-mer as a base-4 numeral over A, C, G, T; a character outside the
    alphabet counts as digit 4, which carries the id out of range when it
    stands first.  It is only used to exercise the statements, which hold
    for every codec. *)
Module SampleCodec.

Definition base_code (c : ascii) : Z :=
  if Ascii.eqb c "A" then 0
  else if Ascii.eqb c "C" then 1
  else if Ascii.eqb c "G" then 2
  else if Ascii.eqb c "T" then 3
  else 4.

Fixpoint encode (k : nat) (s : string) (acc : Z) : Z :=
  match k with
  | O => acc
  | S k' =>
      match s with
      | String c s' => encode k' s' (4 * acc + base_code c)
      | EmptyString => encode k' s (4 * acc + 4)
      end
  end.

(** The [k] base-4 digits of [id] in reverse order. *)
Fixpoint reverse_digits (k : nat) (id acc : Z) : Z :=
  match k with
  | O => acc
  | S k' => reverse_digits k' (id / 4) (4 * acc + id mod 4)
  end.

#[global] Instance codec : KmerCodec := {|
  kmer_count := fun k => (4 ^ k)%Z;
  str_to_kmer := fun k s => encode (Z.to_nat k) s 0;
  kmer_comp := fun k id => reverse_digits (Z.to_nat k) (4 ^ k - 1 - id) 0
|}.

End SampleCodec.

Module SampleFile.
Import RealArith ModelFile.
Local Open Scope string_scope.

Definition KLEN : Z := 2.

Definition header : string := "kmer level_mean level_stdv".

(** Three rows; the second names no k-mer. *)
Definition rows : list FileRow :=
  [ mkFileRow "AA" "90.0" "1.0" [];
    mkFileRow "ZZ" "5.0" "1.0" [];
    mkFileRow "AC" "95.0" "2.0" [] ].

Definition text : string := render header rows.

(** The same header and first row, then a last row that ends at the end
    of the file instead of at a newline. *)
Definition text_unterminated : string :=
  render header [mkFileRow "AA" "90.0" "1.0" []]
    ++ "ZZ" ++ String Stream.tab "5.0" ++ String Stream.tab "1.0".

(** The storage before construction and the locals before the first
    read; any values would do. *)
Definition raw : PoreModel real_arith :=
  @mkPoreModel real_arith [] [] [] 0%R 0%R 0%R 0 0 false false [].

Definition uninit : Row real_arith :=
  @mkRow real_arith "" 0%R 0%R 0%R 0%R 0%R 0%R.

End SampleFile.

(** ** The read loop seen from inside *)

Section LoopShapes.
Context {A : Arith} {L : LoaderArith A} {C : KmerCodec}.
Variable KLEN : Z.
Import Stream ModelFile.

(** The locals when the constructor starts reading: [kmer_str] is an
    empty [std::string], the [float]s hold what [uninit] holds. *)
Definition start_locals (uninit : Row A) : Row A :=
  mkRow EmptyString (lv_mean uninit) (lv_stdv uninit) (sd_mean uninit)
    (sd_stdv uninit) (lambda uninit) (weight uninit).

(** One pass of the [do ... while] loop from the point where the row in
    hand has been stored: read the next row, test [eof()], go round again.
    [read_loop (S fuel)] is [loop_rest fuel] after [store_row]. *)
Definition loop_rest (fuel : nat) (num_cols count : Z) (complement : bool)
    (s : ifstream) (v : Row A) (t : Tables A) : option (Tables A * float) :=
  let '(s, v, lam) := read_row num_cols s v in
  if eof s then Some (t, lam)
  else read_loop KLEN fuel num_cols count complement s v lam t.

(** The row in hand is the file row [r]. *)
Definition in_hand (v : Row A) (r : FileRow) : Prop :=
  kmer_str v = fr_kmer r /\
  lv_mean v = field_value (fr_mean r) /\
  lv_stdv v = field_value (fr_stdv r).

(** The slot at index [count] of each table holds [x]. *)
Definition sentinel_at (count : Z) (x : float) (t : Tables A) : Prop :=
  t_means t !! Z.to_nat count = Some x /\
  t_vars_x2 t !! Z.to_nat count = Some x /\
  t_lognorm_denoms t !! Z.to_nat count = Some x.

(** The rows that do not name the id [k]: those that fail the check and
    those that decode to another id. *)
Definition leaves (count : Z) (c : bool) (k : Z) (r : FileRow) : Prop :=
  row_invalid KLEN count c r = true \/ row_kmer KLEN c (fr_kmer r) <> k.

(** Rows followed by some other text. *)
Definition render_rows_then (rows : list FileRow) (rest : string) : string :=
  fold_right render_row rest rows.

(** A row that ends where the file ends: no newline after its last
    field. *)
Definition render_last (r : FileRow) : string :=
  (fr_kmer r
     ++ render_fields (fr_mean r :: fr_stdv r :: fr_more r) EmptyString)%string.

(** The value a row leaves in [lambda_]: its [lambda] field under the
    layout with seven or more columns, [-1] under the others. *)
Definition row_lam (num_cols : Z) (r : FileRow) : float :=
  if (num_cols >=? 7)%Z then field_value (nth 2 (fr_more r) EmptyString)
  else f_of_int (-1).

(** The ids of the rows that pass the check, in file order. *)
Definition valid_ids (count : Z) (complement : bool) (rows : list FileRow) : list Z :=
  map (fun r => row_kmer KLEN complement (fr_kmer r))
      (filter (fun r => row_invalid KLEN count complement r = false) rows).

(** The lines written to [std::cerr] for the rows that fail the check. *)
Definition diagnostics (count : Z) (complement : bool) (rows : list FileRow)
  : list string :=
  map (fun r => diagnostic (row_kmer KLEN complement (fr_kmer r)))
      (filter (fun r => row_invalid KLEN count complement r = true) rows).

(** What [store_row] writes for a row that passes the check. *)
Definition stored_var (r : FileRow) : float :=
  fmul (fmul (f_of_int 2) (field_value (fr_stdv r))) (field_value (fr_stdv r)).

Definition stored_denom (r : FileRow) : float :=
  d2f (dlog (dsqrt (dmul M_PI (f2d (stored_var r))))).

End LoopShapes.

(** Header words separated by single spaces. *)
Fixpoint join_space (words : list string) : string :=
  match words with
  | [] => EmptyString
  | [w] => w
  | w :: ws => (w ++ String Stream.space (join_space ws))%string
  end.

(** A header word: not empty, no space and no tab in it. *)
Fixpoint no_blank (w : string) : bool :=
  match w with
  | EmptyString => true
  | String c w' =>
      negb (Ascii.eqb c Stream.space || Ascii.eqb c Stream.tab) && no_blank w'
  end.

Definition word_ok (w : string) : bool :=
  match w with
  | EmptyString => false
  | String _ _ => no_blank w
  end.

(** Further sample files: rows that end without a newline, a field that
    is not a number, a header too long for the [u8] counter, a table with
    the [ig_lambda] column, and an id named by two rows. *)
Module SampleEdges.
Import RealArith ModelFile.
Local Open Scope string_scope.

Definition row_AA : FileRow := mkFileRow "AA" "90.0" "1.0" [].
Definition row_ZZ : FileRow := mkFileRow "ZZ" "5.0" "1.0" [].
Definition row_AC : FileRow := mkFileRow "AC" "95.0" "2.0" [].

(** A second row for the k-mer [AA]. *)
Definition row_AA_again : FileRow := mkFileRow "AA" "91.0" "1.5" [].

(** The fields after the k-mer of a row whose [level_mean] is not a
    number. *)
Definition bad_fields : string := "abc" ++ String Stream.tab "2.0".

(** 300 characters and no white space. *)
Definition long_header : string := string_of_list_ascii (repeat "k"%char 300).

Definition header7 : string :=
  "kmer level_mean level_stdv sd_mean sd_stdv ig_lambda weight".

Definition row7_AA : FileRow :=
  mkFileRow "AA" "90.0" "1.0" ["0.5"; "0.1"; "7.5"; "1.0"].
Definition row7_AC : FileRow :=
  mkFileRow "AC" "95.0" "2.0" ["0.5"; "0.1"; "8.5"; "1.0"].

Definition rows7 : list FileRow := [row7_AA; row7_AC].

(** Storage that held another object before. *)
Definition raw_used : PoreModel real_arith :=
  @mkPoreModel real_arith [1%R] [] [] 3%R 4%R 5%R 5 7 true true [2%Z].

Definition header_words : list string := ["kmer"; "level_mean"; "level_stdv"].

Definition gain2 : NormParams IEEE.ieee_arith :=
  @mkNormParams IEEE.ieee_arith (Sample.f32 1) (Sample.f32 2).

End SampleEdges.

(** * Properties *)

(** ** The in-place loops of [normalize] *)

Lemma inplace_loop_fmap {T : Type} (g : T -> T) (pre suf : list T) :
  foldl (fun l i => match l !! i with Some x => <[ i := g x ]> l | None => l end)
        (pre ++ suf) (seq (length pre) (length suf))
  = pre ++ map g suf.
Proof.
  revert pre. induction suf as [|x suf IH]; intros pre; simpl; [done|].
  rewrite list_lookup_middle by done.
  rewrite insert_app_r_alt, Nat.sub_diag by done. simpl.
  specialize (IH (pre ++ [g x])).
  rewrite length_app, Nat.add_1_r, <- !app_assoc in IH. exact IH.
Qed.

Section NormalizerFacts.
Context {A : Arith} {EventRest : Type}.
Implicit Types (m : PoreModel A) (norm : NormParams A).

Lemma normalize_loop norm (events : list float) :
  foldl (normalize_step norm) events (seq 0 (length events)) = map (affine norm) events.
Proof. exact (inplace_loop_fmap (affine norm) [] events). Qed.

Lemma normalize_events_loop norm (events : list (Event A EventRest)) :
  foldl (normalize_events_step norm) events (seq 0 (length events))
  = map (affine_event norm) events.
Proof. exact (inplace_loop_fmap (affine_event norm) [] events). Qed.

(** With a scale that compares equal to zero the parameters passed in
    are replaced by the estimate. *)
Lemma normalize_zero_scale m norm (events : list float) :
  feq (scale norm) (f_of_int 0) = true ->
  normalize m events norm = map (affine (get_norm_params m events)) events.
Proof. intros H. unfold normalize. rewrite H. apply normalize_loop. Qed.

Lemma normalize_nonzero_scale m norm (events : list float) :
  feq (scale norm) (f_of_int 0) = false ->
  normalize m events norm = map (affine norm) events.
Proof. intros H. unfold normalize. rewrite H. apply normalize_loop. Qed.

Lemma normalize_events_zero_scale m norm (events : list (Event A EventRest)) :
  feq (scale norm) (f_of_int 0) = true ->
  normalize_events m events norm
  = map (affine_event (get_norm_params_events m events)) events.
Proof. intros H. unfold normalize_events. rewrite H. apply normalize_events_loop. Qed.

Lemma normalize_events_nonzero_scale m norm (events : list (Event A EventRest)) :
  feq (scale norm) (f_of_int 0) = false ->
  normalize_events m events norm = map (affine_event norm) events.
Proof. intros H. unfold normalize_events. rewrite H. apply normalize_events_loop. Qed.

(** Passing the estimate explicitly gives what the estimate gives when
    it is computed inside, whatever its scale. *)
Lemma normalize_explicit_estimate m (events : list float) :
  normalize m events (get_norm_params m events)
  = map (affine (get_norm_params m events)) events.
Proof.
  destruct (feq (scale (get_norm_params m events)) (f_of_int 0)) eqn:E.
  - by apply normalize_zero_scale.
  - by apply normalize_nonzero_scale.
Qed.

Lemma normalize_events_explicit_estimate m (events : list (Event A EventRest)) :
  normalize_events m events (get_norm_params_events m events)
  = map (affine_event (get_norm_params_events m events)) events.
Proof.
  destruct (feq (scale (get_norm_params_events m events)) (f_of_int 0)) eqn:E.
  - by apply normalize_events_zero_scale.
  - by apply normalize_events_nonzero_scale.
Qed.

(** The two overloads of [get_norm_params] agree. *)
Lemma get_norm_params_events_means m (events : list (Event A EventRest)) :
  get_norm_params_events m events = get_norm_params m (map mean events).
Proof.
  unfold get_norm_params_events, get_norm_params, size_f.
  rewrite length_map.
  change (map mean events) with (mean <$> events).
  by rewrite !foldl_fmap.
Qed.

Lemma normalize_events_means m norm (events : list (Event A EventRest)) :
  map mean (normalize_events m events norm) = normalize m (map mean events) norm.
Proof.
  destruct (feq (scale norm) (f_of_int 0)) eqn:E.
  - rewrite normalize_events_zero_scale, normalize_zero_scale by done.
    rewrite get_norm_params_events_means, !map_map. done.
  - rewrite normalize_events_nonzero_scale, normalize_nonzero_scale by done.
    rewrite !map_map. done.
Qed.

End NormalizerFacts.

(** ** The normalizer's sentinel *)

(** The estimate, passed explicitly, is applied as it is passed: also an
    estimate whose scale compares equal to zero is only replaced by
    itself. *)
Lemma normalize_default_any_scale {A : Arith} (m : PoreModel A) (batch : list float) :
  feq (f_of_int 0) (f_of_int 0) = true ->
  normalize m batch norm_default = normalize m batch (get_norm_params m batch).
Proof.
  intros H0. rewrite normalize_explicit_estimate.
  by apply normalize_zero_scale.
Qed.

Lemma normalize_events_default_any_scale {A : Arith} {EventRest : Type}
    (m : PoreModel A) (batch : list (Event A EventRest)) :
  feq (f_of_int 0) (f_of_int 0) = true ->
  normalize_events m batch norm_default
  = normalize_events m batch (get_norm_params_events m batch).
Proof.
  intros H0. rewrite normalize_events_explicit_estimate.
  by apply normalize_events_zero_scale.
Qed.

(** C3: in an arithmetic where zero compares equal to itself, [normalize]
    called with the default sentinel [{0,0}] leaves the batch exactly as
    computing [params = get_norm_params(batch)] on the untouched batch and
    calling [normalize(batch, params)] does, for every batch whose
    estimated scale is not zero; both overloads. *)
Theorem normalize_default_is_estimate {A : Arith} {EventRest : Type} (m : PoreModel A) :
  feq (f_of_int 0) (f_of_int 0) = true ->
  (forall batch : list float,
     feq (scale (get_norm_params m batch)) (f_of_int 0) = false ->
     normalize m batch norm_default = normalize m batch (get_norm_params m batch)) /\
  (forall batch : list (Event A EventRest),
     feq (scale (get_norm_params_events m batch)) (f_of_int 0) = false ->
     normalize_events m batch norm_default
     = normalize_events m batch (get_norm_params_events m batch)).
Proof.
  intros H0. split; intros batch _.
  - by apply normalize_default_any_scale.
  - by apply normalize_events_default_any_scale.
Qed.

Lemma normalize_default_is_estimate_witness :
  @feq IEEE.ieee_arith (f_of_int 0) (f_of_int 0) = true /\
  feq (scale (get_norm_params Sample.unit_model Sample.batch4)) (f_of_int 0) = false /\
  feq (scale (get_norm_params_events Sample.unit_model Sample.events4)) (f_of_int 0) = false /\
  normalize Sample.unit_model Sample.batch4 norm_default
  = normalize Sample.unit_model Sample.batch4
      (get_norm_params Sample.unit_model Sample.batch4) /\
  normalize_events Sample.unit_model Sample.events4 norm_default
  = normalize_events Sample.unit_model Sample.events4
      (get_norm_params_events Sample.unit_model Sample.events4).
Proof.
  pose proof (normalize_default_is_estimate (EventRest := nat) Sample.unit_model
                ltac:(reflexivity)) as [Hf He].
  split; [reflexivity|]. split; [reflexivity|]. split; [reflexivity|].
  split.
  - apply Hf. reflexivity.
  - apply He. reflexivity.
Defined.

(** C10: in an arithmetic where zero compares equal to itself,
    [normalize(batch, {shift: s, scale: 0})] ignores [s] whatever it is:
    the parameters are estimated afresh from the batch and applied, which
    is what the call with the default sentinel does; both overloads. *)
Theorem normalize_zero_scale_reestimates {A : Arith} {EventRest : Type}
    (m : PoreModel A) (s : float) :
  feq (f_of_int 0) (f_of_int 0) = true ->
  (forall batch : list float,
     normalize m batch {| shift := s; scale := f_of_int 0 |}
     = map (affine (get_norm_params m batch)) batch /\
     normalize m batch {| shift := s; scale := f_of_int 0 |}
     = normalize m batch norm_default) /\
  (forall batch : list (Event A EventRest),
     normalize_events m batch {| shift := s; scale := f_of_int 0 |}
     = map (affine_event (get_norm_params_events m batch)) batch /\
     normalize_events m batch {| shift := s; scale := f_of_int 0 |}
     = normalize_events m batch norm_default).
Proof.
  intros H0. split; intros batch.
  - rewrite !normalize_zero_scale by done. done.
  - rewrite !normalize_events_zero_scale by done. done.
Qed.

Lemma normalize_zero_scale_reestimates_witness :
  @feq IEEE.ieee_arith (f_of_int 0) (f_of_int 0) = true /\
  normalize Sample.unit_model Sample.batch4
    (@mkNormParams IEEE.ieee_arith (Sample.f32 7) (f_of_int 0))
  = normalize Sample.unit_model Sample.batch4 norm_default /\
  normalize_events Sample.unit_model Sample.events4
    (@mkNormParams IEEE.ieee_arith (Sample.f32 7) (f_of_int 0))
  = normalize_events Sample.unit_model Sample.events4 norm_default.
Proof.
  pose proof (normalize_zero_scale_reestimates (EventRest := nat) Sample.unit_model
                (Sample.f32 7) ltac:(reflexivity)) as [Hf He].
  split; [reflexivity|]. split.
  - apply Hf.
  - apply He.
Defined.

(** ** The match scorer *)

Lemma at_sized {A : Arith} (v : list float) (count id : Z) :
  length v = (Z.to_nat count + 1)%nat -> (0 <= id < count)%Z ->
  exists x, at_ v id = Some x /\ v !! Z.to_nat id = Some x.
Proof.
  intros Hlen Hid. unfold at_.
  destruct (Z.ltb_spec id 0) as [?|_]; [lia|].
  destruct (lookup_lt_is_Some_2 v (Z.to_nat id)) as [x Hx]; [lia|].
  exists x. by rewrite Hx.
Qed.

(** C5: for an id in [[0, kmer_count)] the scalar overload returns
    [-((x - means[id])^2 / variance2x[id]) - log_norm_denom[id]], in
    every arithmetic in which negation commutes with division (the source
    negates the square before dividing); the [Event] overload returns what
    the scalar overload returns on [event.mean]. *)
Theorem event_match_prob_formula {A : Arith} {EventRest : Type}
    (m : PoreModel A) (x : float) (id : Z) :
  (forall a b : double, ddiv (dneg a) b = dneg (ddiv a b)) ->
  tables_sized m ->
  (0 <= id < kmer_count_ m)%Z ->
  (exists mu var den,
     lv_means_ m !! Z.to_nat id = Some mu /\
     lv_vars_x2_ m !! Z.to_nat id = Some var /\
     lognorm_denoms_ m !! Z.to_nat id = Some den /\
     event_match_prob m x id
     = Some (d2f (dsub (dneg (ddiv (dpow (f2d (fsub x mu)) 2) (f2d var))) (f2d den)))) /\
  (forall e : Event A EventRest,
     event_match_prob_event m e id = event_match_prob m (mean e) id).
Proof.
  intros Hneg (Hm & Hv & Hd) Hid. split; [|done].
  destruct (at_sized _ _ _ Hm Hid) as (mu & Emu & Lmu).
  destruct (at_sized _ _ _ Hv Hid) as (var & Evar & Lvar).
  destruct (at_sized _ _ _ Hd Hid) as (den & Eden & Lden).
  exists mu, var, den. repeat split; try done.
  unfold event_match_prob. rewrite Emu, Evar, Eden. simpl.
  by rewrite Hneg.
Qed.

(** Negation commutes with division in both instances. *)
Lemma real_div_neg (a b : R) : (- a / b = - (a / b))%R.
Proof. unfold Rdiv. ring. Qed.

Lemma binary_round_aux_opp (prec emax : Z) (s : bool) (m e : Z) (l : location) :
  SFopp (binary_round_aux prec emax s m e l) = binary_round_aux prec emax (negb s) m e l.
Proof.
  unfold binary_round_aux.
  destruct (shr_fexp prec emax m e l) as [mrs e'].
  destruct (shr_fexp prec emax _ e' loc_Exact) as [mrs' e''].
  destruct (shr_m mrs'); try reflexivity.
  destruct (e'' <=? emax - prec)%Z; reflexivity.
Qed.

Lemma ieee_div_neg (a b : spec_float) :
  SFdiv IEEE.prec64 IEEE.emax64 (SFopp a) b = SFopp (SFdiv IEEE.prec64 IEEE.emax64 a b).
Proof.
  destruct a as [sa|sa| |sa ma ea], b as [sb|sb| |sb mb eb]; try reflexivity;
    try (destruct sa, sb; reflexivity).
  cbn [SFdiv SFopp].
  destruct (SFdiv_core_binary _ _ _ _ _ _) as [[mz ez] lz].
  rewrite binary_round_aux_opp. by destruct sa, sb.
Qed.

Lemma event_match_prob_formula_witness :
  tables_sized Sample.unit_model /\
  (0 <= 0 < kmer_count_ Sample.unit_model)%Z /\
  event_match_prob Sample.unit_model (Sample.f32 2) 0 = Some (Sample.f32 (-5)).
Proof.
  assert (Hsz : tables_sized Sample.unit_model) by (by repeat split).
  assert (Hid : (0 <= 0 < kmer_count_ Sample.unit_model)%Z) by (simpl; lia).
  split; [exact Hsz|]. split; [exact Hid|].
  destruct (event_match_prob_formula (A := IEEE.ieee_arith) (EventRest := unit)
              Sample.unit_model (Sample.f32 2) 0 ieee_div_neg Hsz Hid)
    as [(mu & var & den & Hmu & Hvar & Hden & ->) _].
  injection Hmu as <-. injection Hvar as <-. injection Hden as <-. reflexivity.
Defined.

Section RealScorer.
Import RealArith.
Local Open Scope R_scope.

Lemma real_score_decreasing (mu var den x1 x2 : R) :
  0 < var -> Rabs (x1 - mu) < Rabs (x2 - mu) ->
  - (x2 - mu) ^ 2 / var - den < - (x1 - mu) ^ 2 / var - den.
Proof.
  intros Hvar Habs.
  apply Rsqr_lt_abs_1 in Habs. unfold Rsqr in Habs.
  assert (0 < / var) by (by apply Rinv_0_lt_compat).
  unfold Rdiv. simpl. nra.
Qed.

End RealScorer.

(** C8 (in exact real arithmetic): for an id in range whose doubled
    variance is positive, an observation strictly closer to the level
    mean scores strictly higher. *)
Theorem event_match_prob_decreasing_real
    (m : PoreModel RealArith.real_arith) (id : Z) (x1 x2 : R) :
  tables_sized m ->
  (0 <= id < kmer_count_ m)%Z ->
  exists mu var : R,
    lv_means_ m !! Z.to_nat id = Some mu /\
    lv_vars_x2_ m !! Z.to_nat id = Some var /\
    ((0 < var)%R -> (Rabs (x1 - mu) < Rabs (x2 - mu))%R ->
     exists p1 p2 : R,
       event_match_prob m x1 id = Some p1 /\
       event_match_prob m x2 id = Some p2 /\
       (p1 > p2)%R).
Proof.
  intros (Hm & Hv & Hd) Hid.
  destruct (at_sized _ _ _ Hm Hid) as (mu & Emu & Lmu).
  destruct (at_sized _ _ _ Hv Hid) as (var & Evar & Lvar).
  destruct (at_sized _ _ _ Hd Hid) as (den & Eden & Lden).
  exists mu, var. repeat split; try done.
  intros Hvar Habs.
  unfold event_match_prob. rewrite Emu, Evar, Eden.
  eexists _, _. repeat split.
  apply Rlt_gt. exact (real_score_decreasing mu var den x1 x2 Hvar Habs).
Qed.

Lemma event_match_prob_decreasing_real_witness :
  tables_sized Sample.real_model /\
  (0 <= 0 < kmer_count_ Sample.real_model)%Z /\
  (0 < 2)%R /\ (Rabs (91 - 90) < Rabs (88 - 90))%R /\
  exists p1 p2 : R,
    event_match_prob Sample.real_model 91%R 0 = Some p1 /\
    event_match_prob Sample.real_model 88%R 0 = Some p2 /\
    (p1 > p2)%R.
Proof.
  assert (Hsz : tables_sized Sample.real_model) by (by repeat split).
  assert (Hid : (0 <= 0 < kmer_count_ Sample.real_model)%Z) by (simpl; lia).
  assert (Habs : (Rabs (91 - 90) < Rabs (88 - 90))%R).
  { replace (91 - 90)%R with 1%R by lra. replace (88 - 90)%R with (-2)%R by lra.
    rewrite Rabs_R1, Rabs_left by lra. lra. }
  split; [exact Hsz|]. split; [exact Hid|]. split; [lra|]. split; [exact Habs|].
  destruct (event_match_prob_decreasing_real Sample.real_model 0 91%R 88%R Hsz Hid)
    as (mu & var & Hmu & Hvar & H).
  simpl in Hmu, Hvar. injection Hmu as <-. injection Hvar as <-.
  apply H; [lra | exact Habs].
Defined.

(** C8 as stated fails in the code's own arithmetic.  In
    binary32/binary64 the strict inequality is lost to rounding: for a
    k-mer with level mean 90.5, doubled variance 8 and log denominator
    about 1.612, the observations [90.5 + 2^-17] and [90.5 + 2^-16] are at
    different distances from the mean and receive the same score, the
    negated log denominator. *)
Lemma event_match_prob_ieee_tie :
  ~ (forall (m : PoreModel IEEE.ieee_arith) (id : Z)
            (mu var x1 x2 p1 p2 : @float IEEE.ieee_arith),
       tables_sized m ->
       (0 <= id < kmer_count_ m)%Z ->
       lv_means_ m !! Z.to_nat id = Some mu ->
       lv_vars_x2_ m !! Z.to_nat id = Some var ->
       SFltb (@f_of_int IEEE.ieee_arith 0) var = true ->
       SFltb (SFabs (@fsub IEEE.ieee_arith x1 mu)) (SFabs (@fsub IEEE.ieee_arith x2 mu)) = true ->
       event_match_prob m x1 id = Some p1 ->
       event_match_prob m x2 id = Some p2 ->
       SFltb p2 p1 = true).
Proof.
  intros H.
  specialize (H Sample.level_model 0%Z (Sample.f32_scaled 181 (-1)) (Sample.f32 8)
                Sample.near1 Sample.near2
                (SFopp (Sample.f32_scaled 13523155 (-23)))
                (SFopp (Sample.f32_scaled 13523155 (-23)))).
  assert (Hsz : tables_sized Sample.level_model) by (by repeat split).
  specialize (H Hsz ltac:(simpl; lia) eq_refl eq_refl eq_refl eq_refl eq_refl eq_refl).
  discriminate H.
Qed.

(** ** The normalizer in exact real arithmetic *)

Section RealNormalizer.
Import RealArith.
Local Open Scope R_scope.
Implicit Types (m : PoreModel real_arith) (l batch : list R).

Lemma foldl_Rplus_sum l (a : R) : foldl Rplus a l = a + Stats.sum l.
Proof.
  revert a. induction l as [|x l IH]; intros a; simpl; [lra|].
  rewrite IH. lra.
Qed.

Lemma foldl_sq_sum l (mu a : R) :
  foldl (fun acc e => acc + (e - mu) ^ 2) a l
  = a + Stats.sum (map (fun x => (x - mu) ^ 2) l).
Proof.
  revert a. induction l as [|x l IH]; intros a; simpl; [lra|].
  rewrite IH. simpl. lra.
Qed.

(** What the two loops of [get_norm_params] compute. *)
Lemma get_norm_params_real m batch :
  get_norm_params m batch
  = {| shift := model_mean_ m
                - model_stdv_ m / Stats.pop_stdev batch * Stats.arith_mean batch;
       scale := model_stdv_ m / Stats.pop_stdev batch |}.
Proof.
  unfold get_norm_params, size_f, Stats.pop_stdev, Stats.arith_mean. simpl.
  rewrite <- INR_IZR_INZ.
  change (foldl (fun acc e => acc + e) 0 batch) with (foldl Rplus 0 batch).
  rewrite foldl_Rplus_sum, Rplus_0_l.
  pose proof (foldl_sq_sum batch (Stats.sum batch / INR (length batch)) 0) as E.
  simpl in E. rewrite E, Rplus_0_l. reflexivity.
Qed.

Lemma sum_nonneg l : (forall x, In x l -> 0 <= x) -> 0 <= Stats.sum l.
Proof.
  induction l as [|x l IH]; intros H; simpl; [lra|].
  assert (0 <= x) by (apply H; by left).
  assert (0 <= Stats.sum l) by (apply IH; intros y Hy; apply H; by right).
  lra.
Qed.

Lemma sum_sq_nonneg l (mu : R) : 0 <= Stats.sum (map (fun x => (x - mu) ^ 2) l).
Proof.
  apply sum_nonneg. intros y Hy. apply in_map_iff in Hy as (x & <- & _).
  apply pow2_ge_0.
Qed.

Lemma pop_stdev_nonneg l : 0 <= Stats.pop_stdev l.
Proof. apply sqrt_pos. Qed.

Lemma pop_stdev_nil : Stats.pop_stdev [] = 0.
Proof.
  unfold Stats.pop_stdev. simpl. unfold Rdiv. rewrite Rmult_0_l. apply sqrt_0.
Qed.

Lemma sum_affine l (a b : R) :
  Stats.sum (map (fun x => a * x + b) l) = a * Stats.sum l + INR (length l) * b.
Proof.
  induction l as [|x l IH]; [simpl; lra|].
  change (Stats.sum (map (fun x => a * x + b) (x :: l)))
    with (a * x + b + Stats.sum (map (fun x => a * x + b) l)).
  change (Stats.sum (x :: l)) with (x + Stats.sum l).
  change (length (x :: l)) with (S (length l)).
  rewrite IH, S_INR. lra.
Qed.

Lemma arith_mean_affine l (a b : R) :
  l <> [] ->
  Stats.arith_mean (map (fun x => a * x + b) l) = a * Stats.arith_mean l + b.
Proof.
  intros Hl. unfold Stats.arith_mean. rewrite sum_affine, length_map.
  assert (INR (length l) <> 0).
  { apply not_0_INR. destruct l; [done | simpl; lia]. }
  field. done.
Qed.

Lemma sum_sq_affine l (a b mu : R) :
  Stats.sum (map (fun y => (y - (a * mu + b)) ^ 2) (map (fun x => a * x + b) l))
  = a ^ 2 * Stats.sum (map (fun x => (x - mu) ^ 2) l).
Proof.
  induction l as [|x l IH]; [simpl; lra|].
  simpl in *. rewrite IH. ring.
Qed.

Lemma pop_stdev_affine l (a b : R) :
  l <> [] -> 0 <= a ->
  Stats.pop_stdev (map (fun x => a * x + b) l) = a * Stats.pop_stdev l.
Proof.
  intros Hl Ha. unfold Stats.pop_stdev.
  rewrite arith_mean_affine, sum_sq_affine, length_map by done.
  set (S := Stats.sum _). set (n := INR _).
  replace (a ^ 2 * S / n) with (a ^ 2 * (S / n)) by (unfold Rdiv; ring).
  rewrite sqrt_mult_alt by apply pow2_ge_0.
  replace (a ^ 2) with (Rsqr a) by (unfold Rsqr; ring).
  by rewrite sqrt_Rsqr.
Qed.

Lemma affine_real (norm : NormParams real_arith) batch :
  map (affine norm) batch = map (fun x => scale norm * x + shift norm) batch.
Proof. reflexivity. Qed.

(** The estimated map sends a batch of non-zero spread onto the model's
    mean and, when the model's deviation is not negative, onto its
    deviation. *)
Lemma normalize_estimate_moments m batch :
  0 <= model_stdv_ m ->
  Stats.pop_stdev batch <> 0 ->
  Stats.arith_mean (normalize m batch (get_norm_params m batch)) = model_mean_ m /\
  Stats.pop_stdev (normalize m batch (get_norm_params m batch)) = model_stdv_ m.
Proof.
  intros HG Hs.
  assert (Hl : batch <> []) by (intros ->; by rewrite pop_stdev_nil in Hs).
  pose proof (pop_stdev_nonneg batch) as Hs0.
  rewrite normalize_explicit_estimate, get_norm_params_real.
  set (s := Stats.pop_stdev batch) in *. set (mu := Stats.arith_mean batch).
  set (a := model_stdv_ m / s).
  assert (Ha : 0 <= a).
  { unfold a. apply Rmult_le_pos; [done|]. apply Rlt_le, Rinv_0_lt_compat. lra. }
  rewrite affine_real. cbn [scale shift]. fold a.
  rewrite arith_mean_affine, pop_stdev_affine by done.
  fold s mu. split; [lra|]. unfold a. field. done.
Qed.

End RealNormalizer.

Section RealMoments.
Import RealArith.
Local Open Scope R_scope.

(** In exact arithmetic the accumulated moments are the arithmetic mean
    and the population standard deviation. *)
Lemma batch_mean_real (batch : list R) : batch_mean batch = Stats.arith_mean batch.
Proof.
  unfold batch_mean, Stats.arith_mean. simpl.
  rewrite <- INR_IZR_INZ.
  change (foldl (fun acc e => acc + e) 0 batch) with (foldl Rplus 0 batch).
  by rewrite foldl_Rplus_sum, Rplus_0_l.
Qed.

Lemma batch_stdev_real (batch : list R) : batch_stdev batch = Stats.pop_stdev batch.
Proof.
  unfold batch_stdev, Stats.pop_stdev. rewrite batch_mean_real. simpl.
  rewrite <- INR_IZR_INZ.
  pose proof (foldl_sq_sum batch (Stats.arith_mean batch) 0) as E.
  simpl in E. rewrite E, Rplus_0_l. reflexivity.
Qed.

End RealMoments.

(** C6: the [Event] overload of [get_norm_params] returns what the scalar
    overload returns on the events' means; the scalar overload returns
    [scale = global_stdev / s] and [shift = global_mean - scale * m], where
    [m] and [s] are the mean and the deviation accumulated over the batch;
    and in exact real arithmetic, for a non-empty batch whose population
    standard deviation is not zero, [m] is the arithmetic mean and [s] the
    population standard deviation. *)
Theorem get_norm_params_formula :
  (forall (A : Arith) (EventRest : Type) (m : PoreModel A)
          (events : list (Event A EventRest)),
     get_norm_params_events m events = get_norm_params m (map mean events)) /\
  (forall (A : Arith) (m : PoreModel A) (batch : list float),
     scale (get_norm_params m batch) = fdiv (model_stdv_ m) (batch_stdev batch) /\
     shift (get_norm_params m batch)
     = fsub (model_mean_ m) (fmul (scale (get_norm_params m batch)) (batch_mean batch))) /\
  (forall (m : PoreModel RealArith.real_arith) (batch : list R),
     batch <> [] ->
     Stats.pop_stdev batch <> 0%R ->
     scale (get_norm_params m batch) = (model_stdv_ m / Stats.pop_stdev batch)%R /\
     shift (get_norm_params m batch)
     = (model_mean_ m - scale (get_norm_params m batch) * Stats.arith_mean batch)%R).
Proof.
  split; [|split].
  - intros. apply get_norm_params_events_means.
  - intros. done.
  - intros m batch _ _. rewrite get_norm_params_real. done.
Qed.

Lemma pop_stdev_1_3 : Stats.pop_stdev [1; 3]%R = 1%R.
Proof.
  unfold Stats.pop_stdev, Stats.arith_mean. simpl.
  replace (((1 - (1 + (3 + 0)) / (1 + 1)) * ((1 - (1 + (3 + 0)) / (1 + 1)) * 1)
            + ((3 - (1 + (3 + 0)) / (1 + 1)) * ((3 - (1 + (3 + 0)) / (1 + 1)) * 1) + 0))
           / (1 + 1))%R with 1%R by field.
  apply sqrt_1.
Qed.

Lemma get_norm_params_formula_witness :
  [1; 3]%R <> [] /\ Stats.pop_stdev [1; 3]%R <> 0%R /\
  scale (get_norm_params Sample.real_model [1; 3]%R)
  = (12 / Stats.pop_stdev [1; 3])%R.
Proof.
  assert (H : Stats.pop_stdev [1; 3]%R <> 0%R) by (rewrite pop_stdev_1_3; lra).
  split; [done|]. split; [exact H|].
  destruct get_norm_params_formula as (_ & _ & Hreal).
  destruct (Hreal Sample.real_model [1; 3]%R ltac:(done) H) as [Hscale _].
  exact Hscale.
Defined.

(** ** Strings and the input stream *)

Section StringFacts.
Local Open Scope string_scope.

Lemma string_app_assoc (a b c : string) : (a ++ b) ++ c = a ++ (b ++ c).
Proof. induction a as [|x a IH]; simpl; [done | by rewrite IH]. Qed.

Lemma string_length_app (a b : string) :
  String.length (a ++ b) = (String.length a + String.length b)%nat.
Proof. induction a as [|x a IH]; simpl; [done | by rewrite IH]. Qed.

Lemma string_get_middle (a : string) (c : ascii) (b : string) :
  String.get (String.length a) (a ++ String c b) = Some c.
Proof. induction a as [|x a IH]; simpl; done. Qed.

End StringFacts.

Section StreamFacts.
Import Stream ModelFile.
Local Open Scope string_scope.

Lemma isspace_newline : isspace newline = true.
Proof. reflexivity. Qed.

Lemma isspace_tab : isspace tab = true.
Proof. reflexivity. Qed.

Lemma take_line_header (h rest : string) :
  no_newline h = true ->
  take_line (h ++ String newline rest) = (h, Some rest).
Proof.
  induction h as [|c h IH]; simpl; intros H.
  - reflexivity.
  - apply andb_true_iff in H as [Hc Hh].
    apply negb_true_iff in Hc. rewrite Hc, IH by done. done.
Qed.

Lemma skipws_token (t rest : string) :
  token_ok t = true -> skipws (t ++ rest) = t ++ rest.
Proof.
  destruct t as [|c t]; simpl; [done|]. intros H.
  apply andb_true_iff in H as [Hc _]. apply negb_true_iff in Hc. by rewrite Hc.
Qed.

Lemma take_token_field (t : string) (c : ascii) (rest : string) :
  no_space t = true -> isspace c = true ->
  take_token (t ++ String c rest) = (t, String c rest, false).
Proof.
  intros Ht Hc. induction t as [|x t IH]; simpl.
  - by rewrite Hc.
  - simpl in Ht. apply andb_true_iff in Ht as [Hx Ht].
    apply negb_true_iff in Hx. rewrite Hx, IH by done. done.
Qed.

Lemma token_ok_no_space (t : string) : token_ok t = true -> no_space t = true.
Proof. by destruct t. Qed.

Lemma token_ok_cons (t : string) :
  token_ok t = true -> exists c t', t = String c t'.
Proof. destruct t as [|c t']; [done | by exists c, t']. Qed.

(** The sentry on a stream in good state that has a field ahead. *)
Lemma sentry_field (s : ifstream) (t : string) (c : ascii) (rest : string) :
  good s = true ->
  skipws (buf s) = t ++ String c rest ->
  token_ok t = true ->
  sentry s = ({| buf := t ++ String c rest; eofbit := false; failbit := false |}, true).
Proof.
  intros Hg Hb Ht. unfold sentry. rewrite Hg, Hb.
  destruct (token_ok_cons t Ht) as (x & t' & ->). done.
Qed.

(** On a stream that is not in good state every extraction fails and
    only sets [failbit]. *)
Lemma sentry_not_good (s : ifstream) :
  good s = false -> sentry s = (set_fail s, false).
Proof. intros H. unfold sentry. by rewrite H. Qed.

Lemma extract_string_field (s : ifstream) (x t : string) (c : ascii) (rest : string) :
  good s = true ->
  skipws (buf s) = t ++ String c rest ->
  token_ok t = true -> isspace c = true ->
  extract_string s x = ({| buf := String c rest; eofbit := false; failbit := false |}, t).
Proof.
  intros Hg Hb Ht Hc. unfold extract_string.
  rewrite (sentry_field s t c rest) by done. simpl.
  rewrite take_token_field by auto using token_ok_no_space. done.
Qed.

Lemma extract_string_not_good (s : ifstream) (x : string) :
  good s = false -> extract_string s x = (set_fail s, x).
Proof. intros H. unfold extract_string. by rewrite sentry_not_good. Qed.

(** *** The scan of a number *)

(** What may follow a number that is read to its end: nothing, or white
    space. *)
Definition stops (tail : string) : Prop :=
  match tail with
  | EmptyString => True
  | String c _ => isspace c = true
  end.

Lemma isspace_stops (c : ascii) :
  isspace c = true ->
  is_digit c = false /\ Ascii.eqb c "." = false /\
  is_exponent c = false /\ is_sign c = false.
Proof.
  destruct c as [[] [] [] [] [] [] [] []]; vm_compute; intros H;
    (discriminate H || by repeat split).
Qed.

Lemma scan_digits_stops (tail : string) (m d sc : bool) :
  stops tail -> scan_digits tail m d sc = ("", tail).
Proof.
  destruct tail as [|c rest]; [done|]. cbn [stops scan_digits]. intros Hc.
  destruct (isspace_stops c Hc) as (-> & -> & -> & _). done.
Qed.

(** Text that the scan takes to its end is taken in the same way when
    white space or the end of the input follows it. *)
Lemma scan_digits_field (n : nat) (tail : string) :
  stops tail ->
  forall (t : string) (m d sc : bool),
    (String.length t <= n)%nat ->
    snd (scan_digits t m d sc) = "" ->
    scan_digits (t ++ tail) m d sc = (t, tail).
Proof.
  intros Htail. induction n as [|n IH]; intros t m d sc Hlen Hend.
  - destruct t; [|simpl in Hlen; lia]. by apply scan_digits_stops.
  - destruct t as [|x t]; [by apply scan_digits_stops|].
    cbn [String.length] in Hlen. cbn [append scan_digits] in Hend |- *.
    destruct (is_digit x).
    { unfold taken in *. cbn [snd] in Hend. rewrite IH by (done || lia). done. }
    destruct (Ascii.eqb x "." && negb d && negb sc).
    { unfold taken in *. cbn [snd] in Hend. rewrite IH by (done || lia). done. }
    destruct (is_exponent x && negb sc && m); [|done].
    destruct t as [|y t].
    + cbn [append]. destruct tail as [|c rest]; [done|].
      cbn [stops] in Htail. destruct (isspace_stops c Htail) as (_ & _ & _ & ->).
      rewrite scan_digits_stops by done. done.
    + cbn [append String.length] in *. destruct (is_sign y).
      * unfold taken in *. cbn [snd] in Hend. rewrite IH by (done || lia). done.
      * unfold taken in *. cbn [snd] in Hend.
        change (String y (t ++ tail)) with (String y t ++ tail).
        rewrite (IH (String y t) m d true) by (done || (simpl; lia)). done.
Qed.

Lemma scan_float_field (t tail : string) :
  float_text t = true -> stops tail -> scan_float (t ++ tail) = (t, tail).
Proof.
  intros Ht Htail.
  assert (Hend : snd (scan_float t) = "")
    by (unfold float_text in Ht; by destruct (snd (scan_float t))).
  destruct t as [|x t].
  - destruct tail as [|c rest]; [done|]. cbn [append scan_float].
    cbn [stops] in Htail. destruct (isspace_stops c Htail) as (_ & _ & _ & ->).
    by apply scan_digits_stops.
  - cbn [append scan_float] in Hend |- *. destruct (is_sign x).
    + unfold taken in *. cbn [snd] in Hend.
      rewrite (scan_digits_field (String.length t)) by done. done.
    + exact (scan_digits_field (String.length (String x t)) tail Htail (String x t)
               false false false (le_n _) Hend).
Qed.

Context {A : Arith} {L : LoaderArith A}.

Lemma numeric_parts (t : string) :
  numeric t = true ->
  token_ok t = true /\ float_text t = true /\ exists v, f_of_string t = Some v.
Proof.
  unfold numeric. intros H.
  apply andb_true_iff in H as [H Hv]. apply andb_true_iff in H as [Ht Hf].
  apply bool_decide_eq_true_1 in Hv. done.
Qed.

Lemma extract_float_field (s : ifstream) (x : float) (t : string) (c : ascii)
    (rest : string) :
  good s = true ->
  skipws (buf s) = t ++ String c rest ->
  numeric t = true -> isspace c = true ->
  extract_float s x
  = ({| buf := String c rest; eofbit := false; failbit := false |}, field_value t).
Proof.
  intros Hg Hb Ht Hc.
  destruct (numeric_parts t Ht) as (Htok & Hf & v & Hv).
  unfold extract_float.
  rewrite (sentry_field s t c rest) by done. cbn [buf].
  rewrite (scan_float_field t (String c rest)) by done.
  unfold field_value. by rewrite Hv.
Qed.

Lemma extract_float_not_good (s : ifstream) (x : float) :
  good s = false -> extract_float s x = (set_fail s, x).
Proof. intros H. unfold extract_float. by rewrite sentry_not_good. Qed.

Lemma set_fail_not_good (s : ifstream) : good (set_fail s) = false.
Proof. unfold good. simpl. by rewrite andb_false_r. Qed.

End StreamFacts.

(** ** The loader *)

Section LoaderFacts.
Context {A : Arith} {L : LoaderArith A} {C : KmerCodec}.
Variable KLEN : Z.
Import Stream ModelFile.
Local Open Scope string_scope.

(** *** The header loop *)

Lemma count_cols_columns (suf pre : string) (nc : Z) (pw : bool) (fuel : nat) :
  (String.length (pre ++ suf) <= 255)%nat ->
  (String.length suf < fuel)%nat ->
  count_cols fuel (pre ++ suf) (Z.of_nat (String.length pre)) nc pw
  = Some (columns suf nc pw).
Proof.
  revert pre nc pw fuel.
  induction suf as [|c suf IH]; intros pre nc pw fuel Hlen Hfuel;
    (destruct fuel as [|fuel]; [simpl in Hfuel; lia|]); cbn [count_cols columns].
  - rewrite string_length_app. simpl.
    destruct (Z.ltb_spec (Z.of_nat (String.length pre))
                (Z.of_nat (String.length pre + 0))) as [?|_]; [lia | done].
  - rewrite string_length_app in Hlen |- *. simpl in Hlen, Hfuel |- *.
    destruct (Z.ltb_spec (Z.of_nat (String.length pre))
                (Z.of_nat (String.length pre + S (String.length suf)))) as [_|?]; [|lia].
    rewrite Nat2Z.id, string_get_middle.
    assert (Hi : to_u8 (Z.of_nat (String.length pre) + 1)
                 = Z.of_nat (String.length (pre ++ String c ""))).
    { rewrite string_length_app. simpl. unfold to_u8.
      rewrite Z.mod_small by lia. lia. }
    rewrite Hi.
    assert (Happ : pre ++ String c suf = (pre ++ String c "") ++ suf)
      by (by rewrite string_app_assoc).
    rewrite Happ.
    assert (Hlen' : (String.length ((pre ++ String c "") ++ suf) <= 255)%nat).
    { rewrite !string_length_app. simpl. lia. }
    destruct (Ascii.eqb c space || Ascii.eqb c tab); apply IH; (done || lia).
Qed.

Lemma count_cols_header (header : string) (fuel : nat) :
  header_ok header = true ->
  (String.length header < fuel)%nat ->
  count_cols fuel header 0 0 true = Some (columns header 0 true).
Proof.
  intros Hok Hfuel. unfold header_ok in Hok.
  apply andb_true_iff in Hok as [_ Hlen]. apply Nat.leb_le in Hlen.
  exact (count_cols_columns header "" 0 true fuel Hlen Hfuel).
Qed.

(** A header longer than 255 characters is never walked to its end:
    the [u8] counter wraps around. *)
Lemma count_cols_index_bounded (fuel : nat) (header : string) (i nc : Z) (pw : bool) :
  (255 < String.length header)%nat -> (0 <= i < 256)%Z ->
  count_cols fuel header i nc pw = None.
Proof.
  intros Hlen. revert i nc pw.
  induction fuel as [|fuel IH]; intros i nc pw Hi; cbn [count_cols]; [done|].
  destruct (Z.ltb_spec i (Z.of_nat (String.length header))) as [_|?]; [|lia].
  assert (Hu : (0 <= to_u8 (i + 1) < 256)%Z) by (unfold to_u8; apply Z.mod_pos_bound; lia).
  destruct (get (Z.to_nat i) header); [|done].
  destruct (Ascii.eqb a space || Ascii.eqb a tab); by apply IH.
Qed.

(** *** Reading one row *)

Lemma skipws_field (t rest : string) :
  token_ok t = true -> skipws (String tab (t ++ rest)) = t ++ rest.
Proof. intros H. cbn [skipws]. rewrite isspace_tab. by apply skipws_token. Qed.

Lemma numeric_token (t : string) : numeric t = true -> token_ok t = true.
Proof. intros H. by destruct (numeric_parts t H) as [? _]. Qed.

Ltac split_andb :=
  repeat match goal with
         | H : _ && _ = true |- _ => apply andb_true_iff in H as [? ?]
         end.

(** One numeric field that is followed by white space. *)
Ltac read_field :=
  erewrite extract_float_field;
  [ cbv beta iota
  | reflexivity
  | cbn [buf]; apply skipws_field; eauto using numeric_token
  | eassumption
  | reflexivity ].

(** On a stream in good state with a well-formed row ahead, [read_row]
    takes exactly that row and stops before its newline. *)
Lemma read_row_fields (n : Z) (s : ifstream) (v : Row A) (r : FileRow) (rest : string) :
  good s = true ->
  skipws (buf s) = render_row r rest ->
  row_ok n r = true ->
  exists v' lam,
    read_row n s v
    = ({| buf := String newline rest; eofbit := false; failbit := false |}, v', lam) /\
    kmer_str v' = fr_kmer r /\
    lv_mean v' = field_value (fr_mean r) /\
    lv_stdv v' = field_value (fr_stdv r).
Proof.
  intros Hg Hb Hok. destruct r as [k mu sd more].
  unfold row_ok in Hok. cbn [fr_kmer fr_mean fr_stdv fr_more] in *.
  split_andb.
  match goal with H : (length more =? _)%nat = true |- _ => apply Nat.eqb_eq in H; rename H into Hlen end.
  unfold render_row in Hb. cbn [fr_kmer fr_mean fr_stdv fr_more render_fields fold_right] in Hb.
  unfold read_row, more_fields in *.
  destruct (n >=? 7)%Z; [|destruct (n =? 3)%Z; [|destruct (n =? 4)%Z]].
  - destruct more as [|a [|b [|c [|d [|? ?]]]]]; try discriminate Hlen.
    cbn [forallb fold_right] in *. split_andb.
    erewrite extract_string_field; [|done|exact Hb|done|reflexivity]. cbv beta iota.
    do 6 read_field.
    eexists _, _. by repeat split.
  - destruct more as [|? ?]; try discriminate Hlen.
    cbn [forallb fold_right] in *.
    erewrite extract_string_field; [|done|exact Hb|done|reflexivity]. cbv beta iota.
    do 2 read_field.
    eexists _, _. by repeat split.
  - destruct more as [|a [|? ?]]; try discriminate Hlen.
    cbn [forallb fold_right] in *. split_andb.
    erewrite extract_string_field; [|done|exact Hb|done|reflexivity]. cbv beta iota.
    do 3 read_field.
    eexists _, _. by repeat split.
  - destruct more as [|a [|b [|c [|? ?]]]]; try discriminate Hlen.
    cbn [forallb fold_right] in *. split_andb.
    erewrite extract_string_field; [|done|exact Hb|done|reflexivity]. cbv beta iota.
    do 5 read_field.
    eexists _, _. by repeat split.
Qed.

Lemma sentry_at_end (s : ifstream) :
  good s = true -> skipws (buf s) = "" ->
  sentry s = ({| buf := ""; eofbit := true; failbit := true |}, false).
Proof. intros Hg Hb. unfold sentry. by rewrite Hg, Hb. Qed.

(** With nothing but white space left, [read_row] changes no local
    variable and leaves the stream at end of file. *)
Lemma read_row_at_end (n : Z) (s : ifstream) (v : Row A) :
  good s = true -> skipws (buf s) = "" ->
  exists lam,
    read_row n s v = ({| buf := ""; eofbit := true; failbit := true |}, v, lam).
Proof.
  intros Hg Hb. destruct v as [k mu sd a b l w].
  unfold read_row, extract_string. rewrite (sentry_at_end s Hg Hb).
  cbn [kmer_str lv_mean lv_stdv sd_mean sd_stdv lambda weight].
  destruct (n >=? 7)%Z; [|destruct (n =? 3)%Z; [|destruct (n =? 4)%Z]];
    rewrite !extract_float_not_good by done; eexists; reflexivity.
Qed.

(** On a stream with [failbit] set, [read_row] extracts nothing and
    leaves [eofbit] as it was. *)
Lemma read_row_failed (n : Z) (s : ifstream) (v : Row A) :
  failbit s = true ->
  exists s' v' lam,
    read_row n s v = (s', v', lam) /\ eofbit s' = eofbit s /\ failbit s' = true.
Proof.
  intros Hf.
  assert (Hg : good s = false) by (unfold good; rewrite Hf; apply andb_false_r).
  unfold read_row. rewrite extract_string_not_good by done.
  destruct (n >=? 7)%Z; [|destruct (n =? 3)%Z; [|destruct (n =? 4)%Z]];
    rewrite !extract_float_not_good by (done || apply set_fail_not_good);
    eexists _, _, _; by repeat split.
Qed.

(** *** The read loop *)

(** A stream with [failbit] set and [eofbit] clear never lets the loop
    end. *)
Lemma read_loop_failed (fuel : nat) (n count : Z) (c : bool) (s : ifstream)
    (v : Row A) (lam : float) (t : Tables A) :
  failbit s = true -> eofbit s = false ->
  read_loop KLEN fuel n count c s v lam t = None.
Proof.
  revert s v lam t. induction fuel as [|fuel IH]; intros s v lam t Hf He; [done|].
  cbn [read_loop].
  destruct (read_row_failed n s v Hf) as (s' & v' & lam' & -> & He' & Hf').
  unfold eof. rewrite He', He. cbv beta iota. apply IH; congruence.
Qed.

Lemma skipws_render_rows (n : Z) (rows : list FileRow) :
  Forall (fun r => row_ok n r = true) rows ->
  skipws (render_rows rows) = render_rows rows.
Proof.
  destruct 1 as [|r rows Hr _]; [done|].
  cbn [render_rows fold_right]. unfold render_row at 1 3.
  apply skipws_token. unfold row_ok in Hr. by split_andb.
Qed.

(** Over well-formed rows the loop stores the row in hand and then each
    row of the text, and ends after the last one. *)
Lemma read_loop_rows (n count : Z) (c : bool) (rows : list FileRow) :
  forall (fuel : nat) (s : ifstream) (v : Row A) (lam : float) (t : Tables A),
    (length rows < fuel)%nat ->
    good s = true ->
    skipws (buf s) = render_rows rows ->
    Forall (fun r => row_ok n r = true) rows ->
    exists lam',
      read_loop KLEN fuel n count c s v lam t
      = Some (store_rows KLEN count c
                (store_row KLEN count c t (kmer_str v) (lv_mean v) (lv_stdv v)) rows,
              lam').
Proof.
  induction rows as [|r rows IH]; intros fuel s v lam t Hfuel Hg Hb Hok;
    (destruct fuel as [|fuel]; [simpl in Hfuel; lia|]); cbn [read_loop].
  - destruct (read_row_at_end n s v Hg Hb) as (lam' & ->).
    cbn [eof eofbit]. by exists lam'.
  - apply Forall_cons in Hok as [Hr Hok].
    destruct (read_row_fields n s v r (render_rows rows) Hg Hb Hr)
      as (v' & lam' & -> & Hk & Hm & Hs).
    cbn [eof eofbit].
    destruct (IH fuel
                {| buf := String newline (render_rows rows);
                   eofbit := false; failbit := false |} v' lam'
                (store_row KLEN count c t (kmer_str v) (lv_mean v) (lv_stdv v)))
      as (lam'' & ->); [simpl in Hfuel; lia | reflexivity | | exact Hok |].
    + cbn [buf skipws]. rewrite isspace_newline. by eapply skipws_render_rows.
    + exists lam''. rewrite Hk, Hm, Hs. reflexivity.
Qed.

(** *** The constructor *)

Lemma load_result (raw : PoreModel A) (uninit : Row A) (fuel : nat)
    (file : option string) (c : bool) (m : PoreModel A) (err : list string) :
  PoreModel_load KLEN raw uninit fuel file c = Some (m, err) ->
  exists (n : Z) (s : ifstream) (v : Row A) (lam0 : float) (t : Tables A) (lam : float),
    read_loop KLEN fuel n (to_u16 (kmer_count KLEN)) c s v lam0
      (init_tables (to_u16 (kmer_count KLEN))) = Some (t, lam) /\
    m = finish raw (to_u16 (kmer_count KLEN)) t lam /\ err = t_cerr t.
Proof.
  unfold PoreModel_load. intros H.
  destruct (getline (open file) "") as [s header].
  destruct (count_cols fuel header 0 0 true) as [n|]; [|done]. cbn [mbind option_bind] in H.
  destruct (read_row n s _) as [[s' v'] lam0].
  destruct (read_loop KLEN fuel n _ c s' v' lam0 _) as [[t lam]|] eqn:E; [|done].
  cbn [mbind option_bind] in H. injection H as <- <-.
  by exists n, s', v', lam0, t, lam.
Qed.

(** [loaded_] is false only after the default constructor. *)
Lemma default_not_loaded (raw : PoreModel A) : is_loaded (PoreModel_default raw) = false.
Proof. reflexivity. Qed.

(** Whenever the constructor returns, it has set [loaded_]. *)
Lemma load_loaded (raw : PoreModel A) (uninit : Row A) (fuel : nat)
    (file : option string) (c : bool) (m : PoreModel A) (err : list string) :
  PoreModel_load KLEN raw uninit fuel file c = Some (m, err) -> is_loaded m = true.
Proof.
  intros H. apply load_result in H as (n & s & v & lam0 & t & lam & _ & -> & _). done.
Qed.

(** A well-formed file is read to its end: the constructor returns the
    tables obtained by storing the rows in order. *)
Lemma load_well_formed (raw : PoreModel A) (uninit : Row A) (fuel : nat)
    (header : string) (r : FileRow) (rows : list FileRow) (c : bool) :
  let count := to_u16 (kmer_count KLEN) in
  let t := store_rows KLEN count c (init_tables count) (r :: rows) in
  header_ok header = true ->
  Forall (fun r => row_ok (columns header 0 true) r = true) (r :: rows) ->
  (String.length header < fuel)%nat ->
  (length (r :: rows) <= fuel)%nat ->
  exists lam,
    PoreModel_load KLEN raw uninit fuel (Some (render header (r :: rows))) c
    = Some (finish raw count t lam, t_cerr t).
Proof.
  intros count t Hh Hok Hfh Hfr.
  unfold PoreModel_load, render.
  cbn [open getline good eofbit failbit negb andb buf].
  unfold header_ok in Hh. apply andb_true_iff in Hh as [Hnl Hlen].
  rewrite take_line_header by done.
  rewrite count_cols_header by (done || (unfold header_ok; by rewrite Hnl, Hlen)).
  cbn [mbind option_bind].
  set (n := columns header 0 true) in *.
  pose proof Hok as Hok'. apply Forall_cons in Hok' as [Hr Hrows].
  match goal with |- context [read_row n ?s ?v] =>
    destruct (read_row_fields n s v r (render_rows rows) eq_refl) as (v' & lam0 & -> & Hk & Hm & Hs);
      [cbn [buf]; by apply (skipws_render_rows n (r :: rows)) | done |]
  end.
  cbv beta iota. subst count t.
  destruct (read_loop_rows n (to_u16 (kmer_count KLEN)) c rows fuel
              {| buf := String newline (render_rows rows); eofbit := false; failbit := false |}
              v' lam0 (init_tables (to_u16 (kmer_count KLEN))))
    as (lam & ->); [simpl in Hfr; lia | reflexivity | | done |].
  - cbn [buf skipws]. rewrite isspace_newline. by eapply skipws_render_rows.
  - cbn [mbind option_bind]. exists lam. rewrite Hk, Hm, Hs. reflexivity.
Qed.

(** *** The tables while rows are stored *)

Lemma store_rows_app (count : Z) (c : bool) (t : Tables A) (pre post : list FileRow) :
  store_rows KLEN count c t (pre ++ post)
  = store_rows KLEN count c (store_rows KLEN count c t pre) post.
Proof. apply foldl_app. Qed.

(** A row whose id fails the check leaves the tables and the running
    sum as they are and adds one line to [std::cerr]. *)
Lemma store_row_invalid (count : Z) (c : bool) (t : Tables A) (r : FileRow) :
  row_invalid KLEN count c r = true ->
  store_file_row KLEN count c t r
  = {| t_means := t_means t; t_vars_x2 := t_vars_x2 t;
       t_lognorm_denoms := t_lognorm_denoms t; t_mean_sum := t_mean_sum t;
       t_cerr := t_cerr t ++ [diagnostic (row_kmer KLEN c (fr_kmer r))] |}.
Proof.
  unfold row_invalid, store_file_row, store_row. by intros ->.
Qed.

Lemma store_row_length (count : Z) (c : bool) (t : Tables A) (k : string) (mu sd : float) :
  length (t_means (store_row KLEN count c t k mu sd)) = length (t_means t) /\
  length (t_vars_x2 (store_row KLEN count c t k mu sd)) = length (t_vars_x2 t) /\
  length (t_lognorm_denoms (store_row KLEN count c t k mu sd))
  = length (t_lognorm_denoms t).
Proof.
  unfold store_row. destruct (kmer_invalid _ _); cbn; by rewrite ?length_insert.
Qed.

Lemma read_loop_length (fuel : nat) (n count : Z) (c : bool) (s : ifstream)
    (v : Row A) (lam : float) (t t' : Tables A) (lam' : float) :
  read_loop KLEN fuel n count c s v lam t = Some (t', lam') ->
  length (t_means t') = length (t_means t) /\
  length (t_vars_x2 t') = length (t_vars_x2 t) /\
  length (t_lognorm_denoms t') = length (t_lognorm_denoms t).
Proof.
  revert s v lam t. induction fuel as [|fuel IH]; intros s v lam t; [done|].
  cbn [read_loop].
  pose proof (store_row_length count c t (kmer_str v) (lv_mean v) (lv_stdv v))
    as (Hm & Hv & Hd).
  destruct (read_row n s v) as [[s1 v1] lam1].
  destruct (eof s1).
  - intros [= <- <-]. done.
  - intros H. apply IH in H as (-> & -> & ->). done.
Qed.

Lemma init_tables_length (count : Z) :
  length (t_means (init_tables count)) = (Z.to_nat count + 1)%nat /\
  length (t_vars_x2 (init_tables count)) = (Z.to_nat count + 1)%nat /\
  length (t_lognorm_denoms (init_tables count)) = (Z.to_nat count + 1)%nat.
Proof.
  unfold init_tables. cbn. by rewrite length_insert, length_replicate.
Qed.

(** The sentinel slot: the last element of each table is [-1] when the
    vectors are set up. *)
Lemma init_tables_sentinel (count : Z) :
  t_means (init_tables count) !! Z.to_nat count = Some (f_of_int (-1)).
Proof.
  unfold init_tables. cbn. apply list_lookup_insert_eq.
  rewrite length_replicate. lia.
Qed.

(** Every object the constructor returns has tables with one slot per
    id and the sentinel slot. *)
Lemma load_tables_sized (raw : PoreModel A) (uninit : Row A) (fuel : nat)
    (file : option string) (c : bool) (m : PoreModel A) (err : list string) :
  PoreModel_load KLEN raw uninit fuel file c = Some (m, err) -> tables_sized m.
Proof.
  intros H. apply load_result in H as (n & s & v & lam0 & t & lam & Hloop & -> & _).
  apply read_loop_length in Hloop as (Hm & Hv & Hd).
  pose proof (init_tables_length (to_u16 (kmer_count KLEN))) as (Im & Iv & Id).
  unfold tables_sized. cbn. by rewrite Hm, Hv, Hd.
Qed.

(** The running sum is the left-to-right sum of the stored means. *)
Lemma mean_sum_store_rows (count : Z) (c : bool) (rows : list FileRow) (t : Tables A) :
  t_mean_sum (store_rows KLEN count c t rows)
  = foldl fadd (t_mean_sum t) (stored_means KLEN count c rows).
Proof.
  revert t. induction rows as [|r rows IH]; intros t; [done|].
  unfold store_rows, stored_means in *. cbn [foldl]. rewrite IH.
  unfold store_file_row at 1, store_row. fold (row_invalid KLEN count c r).
  destruct (row_invalid KLEN count c r) eqn:E.
  - rewrite filter_cons_False by (by rewrite E). done.
  - rewrite filter_cons_True by done. done.
Qed.

(** The index loop over the first [count] slots is a fold over them. *)
Lemma index_fold_take {T : Type} (g : T -> float -> T) (l : list float) (n i : nat) (a : T) :
  (i + n <= length l)%nat ->
  foldl (fun acc k => match l !! k with Some x => g acc x | None => acc end) a (seq i n)
  = foldl g a (take n (drop i l)).
Proof.
  revert i a. induction n as [|n IH]; intros i a Hlen; [done|].
  cbn [seq foldl].
  destruct (lookup_lt_is_Some_2 l i) as [x Hx]; [lia|].
  rewrite Hx, IH by lia.
  rewrite (drop_S l x i Hx). done.
Qed.

Lemma sum_sq_dev_take (means : list float) (mu : float) (count : Z) :
  (Z.to_nat count <= length means)%nat ->
  sum_sq_dev means mu count
  = foldl (fun acc x => d2f (dadd (f2d acc) (dpow (f2d (fsub x mu)) 2)))
      (f_of_int 0) (take (Z.to_nat count) means).
Proof.
  intros H. unfold sum_sq_dev.
  exact (index_fold_take
           (fun acc x => d2f (dadd (f2d acc) (dpow (f2d (fsub x mu)) 2)))
           means (Z.to_nat count) 0 (f_of_int 0) H).
Qed.

(** The deviation the constructor leaves, for every object it returns. *)
Lemma load_stdv (raw : PoreModel A) (uninit : Row A) (fuel : nat)
    (file : option string) (c : bool) (m : PoreModel A) (err : list string) :
  PoreModel_load KLEN raw uninit fuel file c = Some (m, err) ->
  kmer_count_ m = to_u16 (kmer_count KLEN) /\
  model_stdv_ m
  = fsqrt (fdiv (foldl (fun acc x =>
                          d2f (dadd (f2d acc) (dpow (f2d (fsub x (model_mean_ m))) 2)))
                   (f_of_int 0) (take (Z.to_nat (kmer_count_ m)) (lv_means_ m)))
             (f_of_int (kmer_count_ m))).
Proof.
  intros H. pose proof (load_tables_sized _ _ _ _ _ _ _ H) as (Hm & _).
  apply load_result in H as (n & s & v & lam0 & t & lam & _ & -> & _).
  split; [done|]. cbn in *. rewrite sum_sq_dev_take by lia. done.
Qed.

(** *** Statements about the constructor *)

(** C1 (what the code does instead): for a path that cannot be opened
    the stream has [failbit] set and never reaches end of file, so the
    read loop does not end: no number of loop tests makes the
    constructor return, with [loaded_] false or otherwise. *)
Theorem load_unopened_never_returns (raw : PoreModel A) (uninit : Row A) (c : bool) :
  forall fuel : nat, PoreModel_load KLEN raw uninit fuel None c = None.
Proof.
  intros fuel. unfold PoreModel_load.
  change (getline (open None) "")
    with ({| buf := ""; eofbit := false; failbit := true |}, "").
  cbv beta iota.
  destruct fuel as [|fuel]; [done|].
  change (count_cols (S fuel) "" 0 0 true) with (Some 0%Z).
  cbn [mbind option_bind].
  match goal with |- context [read_row 0 ?s ?v] =>
    destruct (read_row_failed 0 s v eq_refl) as (s' & v' & lam & -> & He & Hf)
  end.
  rewrite read_loop_failed; done.
Qed.

(** C9 (what the code does instead): the constructor never assigns
    [k_], so after construction [kmer_len()] returns whatever the
    object's storage held before, independently of [KLEN]. *)
Theorem kmer_len_is_uninitialized (raw : PoreModel A) (uninit : Row A) (fuel : nat)
    (file : option string) (c : bool) (m : PoreModel A) (err : list string) :
  PoreModel_load KLEN raw uninit fuel file c = Some (m, err) ->
  kmer_len m = k_ raw.
Proof.
  intros H. apply load_result in H as (n & s & v & lam0 & t & lam & _ & -> & _).
  unfold kmer_len, finish. reflexivity.
Qed.

(** The text on [std::cerr] only grows while rows are stored. *)
Lemma store_rows_cerr (count : Z) (c : bool) (rows : list FileRow) (t : Tables A) :
  exists later, t_cerr (store_rows KLEN count c t rows) = (t_cerr t ++ later)%list.
Proof.
  revert t. induction rows as [|r rows IH]; intros t.
  - exists []. cbn. by rewrite app_nil_r.
  - unfold store_rows in *. cbn [foldl].
    destruct (IH (store_file_row KLEN count c t r)) as (later & ->).
    unfold store_file_row, store_row.
    destruct (kmer_invalid count (row_kmer KLEN c (fr_kmer r))); cbn [t_cerr].
    + eexists. by rewrite <- app_assoc.
    + by exists later.
Qed.


(** C4: whenever the constructor returns, [global_stdev] is the square
    root of the sum, over the first [kmer_count] slots of [means]
    (populated or not), of the squared deviations from [global_mean],
    divided by [kmer_count]; and for a well-formed file [global_mean] is
    the sum of the level means of the rows that were stored, divided by
    [kmer_count]. *)
Theorem global_mean_and_stdev (raw : PoreModel A) (uninit : Row A) (c : bool) :
  let count := to_u16 (kmer_count KLEN) in
  (forall (fuel : nat) (file : option string) (m : PoreModel A) (err : list string),
     PoreModel_load KLEN raw uninit fuel file c = Some (m, err) ->
     kmer_count_ m = count /\
     model_stdv_ m
     = fsqrt (fdiv (foldl (fun acc x =>
                             d2f (dadd (f2d acc) (dpow (f2d (fsub x (model_mean_ m))) 2)))
                      (f_of_int 0) (take (Z.to_nat count) (lv_means_ m)))
                (f_of_int count))) /\
  (forall (fuel : nat) (header : string) (r : FileRow) (rows : list FileRow),
     header_ok header = true ->
     Forall (fun r => row_ok (columns header 0 true) r = true) (r :: rows) ->
     (String.length header < fuel)%nat ->
     (length (r :: rows) <= fuel)%nat ->
     exists (m : PoreModel A) (err : list string),
       PoreModel_load KLEN raw uninit fuel (Some (render header (r :: rows))) c
       = Some (m, err) /\
       model_mean_ m
       = fdiv (foldl fadd (f_of_int 0) (stored_means KLEN count c (r :: rows)))
           (f_of_int count)).
Proof.
  intros count. split.
  - intros fuel file m err H.
    destruct (load_stdv raw uninit fuel file c m err H) as [Hc Hs].
    split; [done|]. rewrite Hs, Hc. done.
  - intros fuel header r rows Hh Hok Hfh Hfr.
    destruct (load_well_formed raw uninit fuel header r rows c Hh Hok Hfh Hfr) as (lam & E).
    eexists _, _. split; [exact E|].
    cbn [finish model_mean_]. by rewrite mean_sum_store_rows.
Qed.

End LoaderFacts.

(** ** The constructor on the sample file *)

Section SampleLoad.
Import RealArith ModelFile SampleFile.

Lemma sample_header_ok : header_ok header = true.
Proof. reflexivity. Qed.

Lemma sample_rows_ok :
  Forall (fun r => row_ok (columns header 0 true) r = true) rows.
Proof. repeat constructor; vm_compute; reflexivity. Qed.

Lemma sample_row_invalid :
  row_invalid KLEN (to_u16 (kmer_count KLEN)) false (mkFileRow "ZZ" "5.0" "1.0" []) = true.
Proof. reflexivity. Qed.

End SampleLoad.

(** The read-ahead loop tests [eof()] after reading the next row: a last
    row that is not closed by a newline sets [eofbit] while it is read, so
    the loop ends before the row is checked or stored. *)
Example last_row_without_newline :
  exists m,
    PoreModel_load (C := SampleCodec.codec) SampleFile.KLEN SampleFile.raw SampleFile.uninit
      30 (Some SampleFile.text_unterminated) false = Some (m, []) /\
    is_loaded m = true.
Proof. eexists. split; [vm_compute; reflexivity | reflexivity]. Qed.

(** An empty file is opened but has nothing to read: the constructor
    returns, with [loaded_] set. *)
Example load_empty_file :
  exists m err,
    PoreModel_load (C := SampleCodec.codec) SampleFile.KLEN SampleFile.raw SampleFile.uninit
      30 (Some EmptyString) false = Some (m, err) /\
    is_loaded m = true.
Proof. eexists _, _. split; [vm_compute; reflexivity | reflexivity]. Qed.

Lemma load_unopened_never_returns_witness :
  PoreModel_load (C := SampleCodec.codec) SampleFile.KLEN SampleFile.raw SampleFile.uninit
    1000 None false = None.
Proof. apply load_unopened_never_returns. Defined.

Lemma kmer_len_is_uninitialized_witness :
  exists m err,
    PoreModel_load (C := SampleCodec.codec) SampleFile.KLEN SampleFile.raw SampleFile.uninit
      30 (Some SampleFile.text) false = Some (m, err) /\
    kmer_len m = 0%Z /\ kmer_len m <> SampleFile.KLEN.
Proof.
  destruct (load_well_formed (C := SampleCodec.codec) SampleFile.KLEN SampleFile.raw
              SampleFile.uninit 30 SampleFile.header
              (ModelFile.mkFileRow "AA" "90.0" "1.0" [])
              [ModelFile.mkFileRow "ZZ" "5.0" "1.0" [];
               ModelFile.mkFileRow "AC" "95.0" "2.0" []] false
              sample_header_ok sample_rows_ok)
    as (lam & E); [simpl; lia | simpl; lia |].
  eexists _, _. split; [exact E|].
  rewrite (kmer_len_is_uninitialized (C := SampleCodec.codec) _ _ _ _ _ _ _ _ E).
  split; [reflexivity | discriminate].
Defined.



Lemma global_mean_and_stdev_witness :
  exists m err,
    PoreModel_load (C := SampleCodec.codec) SampleFile.KLEN SampleFile.raw SampleFile.uninit
      30 (Some SampleFile.text) false = Some (m, err) /\
    model_mean_ m
    = fdiv (foldl fadd (f_of_int 0)
              [ModelFile.field_value "90.0"; ModelFile.field_value "95.0"])
        (f_of_int 16) /\
    model_stdv_ m
    = fsqrt (fdiv (foldl (fun acc x =>
                            d2f (dadd (f2d acc) (dpow (f2d (fsub x (model_mean_ m))) 2)))
                     (f_of_int 0) (take 16 (lv_means_ m)))
               (f_of_int 16)).
Proof.
  destruct (global_mean_and_stdev (C := SampleCodec.codec) SampleFile.KLEN SampleFile.raw
              SampleFile.uninit false) as [Hstdv Hmean].
  destruct (Hmean 30%nat SampleFile.header
              (ModelFile.mkFileRow "AA" "90.0" "1.0" [])
              [ModelFile.mkFileRow "ZZ" "5.0" "1.0" [];
               ModelFile.mkFileRow "AC" "95.0" "2.0" []]
              sample_header_ok sample_rows_ok)
    as (m & err & E & Hm); [simpl; lia | simpl; lia |].
  exists m, err. split; [exact E|]. split; [exact Hm|].
  destruct (Hstdv _ _ _ _ E) as [_ Hs]. exact Hs.
Defined.

(** ** Round trip of the normalizer *)

Lemma load_stdv_nonneg {C : KmerCodec} (KLEN : Z) (raw : PoreModel RealArith.real_arith)
    (uninit : Row RealArith.real_arith) (fuel : nat) (file : option string) (c : bool)
    (m : PoreModel RealArith.real_arith) (err : list string) :
  PoreModel_load KLEN raw uninit fuel file c = Some (m, err) ->
  (0 <= model_stdv_ m)%R.
Proof.
  intros H. apply load_result in H as (n & s & v & lam0 & t & lam & _ & -> & _).
  cbn. apply sqrt_pos.
Qed.

(** C7 (in exact real arithmetic): for a constructed model and a batch
    whose population standard deviation is not zero, the batch normalized
    with its own estimated parameters has the model's [global_mean] as
    arithmetic mean and the model's [global_stdev] as population standard
    deviation. *)
Theorem normalize_round_trip_real {C : KmerCodec} (KLEN : Z)
    (raw : PoreModel RealArith.real_arith) (uninit : Row RealArith.real_arith)
    (fuel : nat) (file : option string) (c : bool)
    (m : PoreModel RealArith.real_arith) (err : list string) (batch : list R) :
  PoreModel_load KLEN raw uninit fuel file c = Some (m, err) ->
  Stats.pop_stdev batch <> 0%R ->
  Stats.arith_mean (normalize m batch (get_norm_params m batch)) = model_mean_ m /\
  Stats.pop_stdev (normalize m batch (get_norm_params m batch)) = model_stdv_ m.
Proof.
  intros Hload Hs. apply normalize_estimate_moments; [|done].
  by eapply load_stdv_nonneg.
Qed.

Lemma normalize_round_trip_real_witness :
  exists m err,
    PoreModel_load (C := SampleCodec.codec) SampleFile.KLEN SampleFile.raw SampleFile.uninit
      30 (Some SampleFile.text) false = Some (m, err) /\
    Stats.pop_stdev [1; 3]%R <> 0%R /\
    Stats.arith_mean (normalize m [1; 3]%R (get_norm_params m [1; 3]%R)) = model_mean_ m /\
    Stats.pop_stdev (normalize m [1; 3]%R (get_norm_params m [1; 3]%R)) = model_stdv_ m.
Proof.
  destruct (load_well_formed (C := SampleCodec.codec) SampleFile.KLEN SampleFile.raw
              SampleFile.uninit 30 SampleFile.header
              (ModelFile.mkFileRow "AA" "90.0" "1.0" [])
              [ModelFile.mkFileRow "ZZ" "5.0" "1.0" [];
               ModelFile.mkFileRow "AC" "95.0" "2.0" []] false
              sample_header_ok sample_rows_ok)
    as (lam & E); [simpl; lia | simpl; lia |].
  assert (H : Stats.pop_stdev [1; 3]%R <> 0%R) by (rewrite pop_stdev_1_3; lra).
  eexists _, _. split; [exact E|]. split; [exact H|].
  exact (normalize_round_trip_real (C := SampleCodec.codec) _ _ _ _ _ _ _ _ _ E H).
Defined.

(** The round trip in binary32/binary64.  For a model with
    [model_mean_ = 90] and [model_stdv_ = 12], the batch
    [16777216, 16777218] (exact mean 16777217, exact deviation 1) is
    normalized with its own estimated parameters to [96, 112]: the sum of
    the batch rounds to [2^25], the estimated mean is [16777216] and the
    estimated deviation [sqrt 2].  The mean and the deviation of the
    result, which the accumulations compute without rounding, are 104
    and 8. *)
Example wide_batch_round_trip :
  let m := Sample.unit_model in
  let out := normalize m Sample.wide_batch (get_norm_params m Sample.wide_batch) in
  model_mean_ m = Sample.f32 90 /\ model_stdv_ m = Sample.f32 12 /\
  out = [Sample.f32 96; Sample.f32 112] /\
  batch_mean out = Sample.f32 104 /\
  batch_stdev out = Sample.f32 8.
Proof. cbv zeta. repeat split; vm_compute; reflexivity. Qed.

(** C7 as stated fails in the code's own arithmetic: no tolerance below
    4 holds.  For a batch whose values are not all equal (its exact
    population standard deviation is not zero) and whose deviation as
    the code computes it is not zero either, even a tolerance of 1 on the
    mean and on the deviation is missed: the normalized batch of
    [wide_batch_round_trip] is off the model's mean by 14 and off its
    deviation by 4. *)
Lemma normalize_round_trip_ieee_fails :
  ~ (forall (m : PoreModel IEEE.ieee_arith) (batch : list (@float IEEE.ieee_arith)),
       (exists x y, In x batch /\ In y batch /\ SFeqb x y = false) ->
       SFeqb (batch_stdev batch) (@f_of_int IEEE.ieee_arith 0) = false ->
       let out := normalize m batch (get_norm_params m batch) in
       SFltb (SFabs (@fsub IEEE.ieee_arith (batch_mean out) (model_mean_ m)))
         (Sample.f32 1) = true /\
       SFltb (SFabs (@fsub IEEE.ieee_arith (batch_stdev out) (model_stdv_ m)))
         (Sample.f32 1) = true).
Proof.
  intros H.
  destruct (H Sample.unit_model Sample.wide_batch) as [Hmean _].
  - exists (Sample.f32 16777216), (Sample.f32 16777218).
    split; [by left|]. split; [right; by left|]. vm_compute. reflexivity.
  - vm_compute. reflexivity.
  - vm_compute in Hmean. discriminate Hmean.
Qed.

(** * Further properties of the loader *)

Section LoaderEdges.
Context {A : Arith} {L : LoaderArith A} {C : KmerCodec}.
Variable KLEN : Z.
Import Stream ModelFile.
Local Open Scope string_scope.

Ltac andb_hyps :=
  repeat match goal with
         | H : _ && _ = true |- _ => apply andb_true_iff in H as [? ?]
         end.

Ltac take_field :=
  erewrite extract_float_field;
  [ cbv beta iota
  | reflexivity
  | cbn [buf]; apply skipws_field; eauto using numeric_token
  | eassumption
  | reflexivity ].

(** ** The stream at the end of the input *)

Lemma string_app_empty (t : string) : t ++ "" = t.
Proof. induction t as [|c t IH]; simpl; [done | by rewrite IH]. Qed.

Lemma skipws_idem (s : string) : skipws (skipws s) = skipws s.
Proof.
  induction s as [|c s IH]; [done|]. cbn [skipws].
  destruct (isspace c) eqn:E; [done|]. cbn [skipws]. by rewrite E.
Qed.

Lemma take_token_end (t : string) :
  no_space t = true -> take_token t = (t, "", true).
Proof.
  induction t as [|c t IH]; [done|]. cbn [no_space take_token]. intros H.
  apply andb_true_iff in H as [Hc Ht]. apply negb_true_iff in Hc.
  rewrite Hc, IH by done. done.
Qed.

(** A numeric field that runs up to the end of the input is extracted,
    and reaching the end sets [eofbit]. *)
Lemma extract_float_last (s : ifstream) (x : float) (t : string) :
  good s = true ->
  skipws (buf s) = t ++ "" ->
  numeric t = true ->
  extract_float s x
  = ({| buf := ""; eofbit := true; failbit := false |}, field_value t).
Proof.
  intros Hg Hb Ht.
  destruct (numeric_parts t Ht) as (Htok & Hf & v & Hv).
  pose proof (scan_float_field t "" Hf I) as Hscan.
  rewrite string_app_empty in Hb, Hscan.
  unfold extract_float, sentry. rewrite Hg, Hb.
  destruct (token_ok_cons t Htok) as (c & t' & ->). cbn [buf].
  rewrite Hscan. unfold field_value. by rewrite Hv.
Qed.

(** On a stream that is not in good state [read_row] extracts nothing:
    it sets [failbit] and leaves [eofbit] as it was. *)
Lemma read_row_not_good (n : Z) (s : ifstream) (v : Row A) :
  good s = false ->
  exists s' v' lam,
    read_row n s v = (s', v', lam) /\ eofbit s' = eofbit s /\ failbit s' = true.
Proof.
  intros Hg. unfold read_row. rewrite extract_string_not_good by done.
  destruct (n >=? 7)%Z; [|destruct (n =? 3)%Z; [|destruct (n =? 4)%Z]];
    rewrite !extract_float_not_good by (done || apply set_fail_not_good);
    eexists _, _, _; by repeat split.
Qed.

(** ** Reading rows *)

Lemma store_in_hand (count : Z) (c : bool) (t : Tables A) (v : Row A) (r : FileRow) :
  in_hand v r ->
  store_row KLEN count c t (kmer_str v) (lv_mean v) (lv_stdv v)
  = store_file_row KLEN count c t r.
Proof. intros (-> & -> & ->). done. Qed.

(** [read_row] on a well-formed row, with what it leaves in [lambda_]
    and in the local [lambda]. *)
Lemma read_row_fields_full (n : Z) (s : ifstream) (v : Row A) (r : FileRow)
    (rest : string) :
  good s = true ->
  skipws (buf s) = render_row r rest ->
  row_ok n r = true ->
  exists v' lam,
    read_row n s v
    = ({| buf := String newline rest; eofbit := false; failbit := false |}, v', lam) /\
    in_hand v' r /\
    lam = row_lam n r /\
    ((n >=? 7)%Z = true -> lambda v' = row_lam n r).
Proof.
  intros Hg Hb Hok. destruct r as [k mu sd more].
  unfold row_ok in Hok. unfold in_hand, row_lam.
  cbn [fr_kmer fr_mean fr_stdv fr_more] in *.
  andb_hyps.
  match goal with
  | H : (length more =? _)%nat = true |- _ => apply Nat.eqb_eq in H; rename H into Hlen
  end.
  unfold render_row in Hb. cbn [fr_kmer fr_mean fr_stdv fr_more render_fields fold_right] in Hb.
  unfold read_row, more_fields in *.
  destruct (n >=? 7)%Z; [|destruct (n =? 3)%Z; [|destruct (n =? 4)%Z]].
  - destruct more as [|a [|b [|c [|d [|? ?]]]]]; try discriminate Hlen.
    cbn [forallb fold_right] in *. andb_hyps.
    erewrite extract_string_field; [|done|exact Hb|done|reflexivity]. cbv beta iota.
    do 6 take_field.
    eexists _, _. by repeat split.
  - destruct more as [|? ?]; try discriminate Hlen.
    cbn [forallb fold_right] in *.
    erewrite extract_string_field; [|done|exact Hb|done|reflexivity]. cbv beta iota.
    do 2 take_field.
    eexists _, _. by repeat split.
  - destruct more as [|a [|? ?]]; try discriminate Hlen.
    cbn [forallb fold_right] in *. andb_hyps.
    erewrite extract_string_field; [|done|exact Hb|done|reflexivity]. cbv beta iota.
    do 3 take_field.
    eexists _, _. by repeat split.
  - destruct more as [|a [|b [|c [|? ?]]]]; try discriminate Hlen.
    cbn [forallb fold_right] in *. andb_hyps.
    erewrite extract_string_field; [|done|exact Hb|done|reflexivity]. cbv beta iota.
    do 5 take_field.
    eexists _, _. by repeat split.
Qed.

(** [read_row] on a well-formed row that ends where the input ends: the
    row is read, and [eofbit] is set by its last field. *)
Lemma read_row_last (n : Z) (s : ifstream) (v : Row A) (r : FileRow) :
  good s = true ->
  skipws (buf s) = render_last r ->
  row_ok n r = true ->
  exists v' lam,
    read_row n s v = ({| buf := ""; eofbit := true; failbit := false |}, v', lam) /\
    in_hand v' r.
Proof.
  intros Hg Hb Hok. destruct r as [k mu sd more].
  unfold row_ok in Hok. unfold in_hand.
  cbn [fr_kmer fr_mean fr_stdv fr_more] in *.
  andb_hyps.
  match goal with
  | H : (length more =? _)%nat = true |- _ => apply Nat.eqb_eq in H; rename H into Hlen
  end.
  unfold render_last in Hb. cbn [fr_kmer fr_mean fr_stdv fr_more render_fields fold_right] in Hb.
  unfold read_row, more_fields in *.
  destruct (n >=? 7)%Z; [|destruct (n =? 3)%Z; [|destruct (n =? 4)%Z]].
  - destruct more as [|a [|b [|c [|d [|? ?]]]]]; try discriminate Hlen.
    cbn [forallb fold_right] in *. andb_hyps.
    erewrite extract_string_field; [|done|exact Hb|done|reflexivity]. cbv beta iota.
    do 5 take_field.
    erewrite extract_float_last;
      [|reflexivity|cbn [buf]; apply skipws_field; eauto using numeric_token|done].
    eexists _, _. by repeat split.
  - destruct more as [|? ?]; try discriminate Hlen.
    cbn [forallb fold_right] in *.
    erewrite extract_string_field; [|done|exact Hb|done|reflexivity]. cbv beta iota.
    do 1 take_field.
    erewrite extract_float_last;
      [|reflexivity|cbn [buf]; apply skipws_field; eauto using numeric_token|done].
    eexists _, _. by repeat split.
  - destruct more as [|a [|? ?]]; try discriminate Hlen.
    cbn [forallb fold_right] in *. andb_hyps.
    erewrite extract_string_field; [|done|exact Hb|done|reflexivity]. cbv beta iota.
    do 2 take_field.
    erewrite extract_float_last;
      [|reflexivity|cbn [buf]; apply skipws_field; eauto using numeric_token|done].
    eexists _, _. by repeat split.
  - destruct more as [|a [|b [|c [|? ?]]]]; try discriminate Hlen.
    cbn [forallb fold_right] in *. andb_hyps.
    erewrite extract_string_field; [|done|exact Hb|done|reflexivity]. cbv beta iota.
    do 4 take_field.
    erewrite extract_float_last;
      [|reflexivity|cbn [buf]; apply skipws_field; eauto using numeric_token|done].
    eexists _, _. by repeat split.
Qed.

(** A row whose [level_mean] field does not start with a number, while
    the input goes on after the characters taken: the extraction sets
    [failbit], the end of the input is not reached, and the rest of the
    row is not read. *)
Lemma read_row_bad_mean (n : Z) (s : ifstream) (v : Row A)
    (k text acc rest : string) :
  good s = true ->
  skipws (buf s) = k ++ String tab text ->
  token_ok k = true ->
  scan_float (skipws text) = (acc, rest) -> rest <> "" ->
  f_of_string acc = None ->
  exists s' v' lam,
    read_row n s v = (s', v', lam) /\ eofbit s' = false /\ failbit s' = true.
Proof.
  intros Hg Hb Hk Hscan Hrest Hnone.
  assert (Hmean : forall x,
            extract_float {| buf := String tab text; eofbit := false; failbit := false |} x
            = ({| buf := rest; eofbit := false; failbit := true |}, f_on_failure acc)).
  { intros x. unfold extract_float, sentry. cbn [good eofbit failbit negb andb buf skipws].
    rewrite isspace_tab.
    destruct (skipws text) as [|y b] eqn:E.
    - cbn in Hscan. injection Hscan as <- <-. done.
    - cbn [buf]. rewrite Hscan, Hnone. by destruct rest. }
  unfold read_row.
  erewrite extract_string_field; [|done|exact Hb|done|reflexivity]. cbv beta iota.
  destruct (n >=? 7)%Z; [|destruct (n =? 3)%Z; [|destruct (n =? 4)%Z]];
    rewrite Hmean; cbv beta iota;
    rewrite !extract_float_not_good by (reflexivity || apply set_fail_not_good);
    eexists _, _, _; by repeat split.
Qed.

(** ** The constructor after the header line *)

Lemma count_cols_some (fuel : nat) (suf pre : string) (nc : Z) (pw : bool) (n : Z) :
  (String.length (pre ++ suf) <= 255)%nat ->
  count_cols fuel (pre ++ suf) (Z.of_nat (String.length pre)) nc pw = Some n ->
  n = columns suf nc pw.
Proof.
  intros Hlen H.
  destruct (Nat.lt_ge_cases (String.length suf) fuel) as [Hf|Hf].
  - rewrite count_cols_columns in H by done. by injection H as <-.
  - exfalso. revert suf pre nc pw Hlen H Hf.
    induction fuel as [|fuel IH]; intros suf pre nc pw Hlen H Hf; [done|].
    destruct suf as [|c suf]; [simpl in Hf; lia|].
    cbn [count_cols] in H.
    rewrite string_length_app in Hlen, H. simpl in Hlen, Hf, H.
    destruct (Z.ltb_spec (Z.of_nat (String.length pre))
                (Z.of_nat (String.length pre + S (String.length suf)))) as [_|?]; [|lia].
    rewrite Nat2Z.id, string_get_middle in H.
    assert (Hi : to_u8 (Z.of_nat (String.length pre) + 1)
                 = Z.of_nat (String.length (pre ++ String c ""))).
    { rewrite string_length_app. simpl. unfold to_u8. rewrite Z.mod_small by lia. lia. }
    rewrite Hi in H.
    assert (Happ : pre ++ String c suf = (pre ++ String c "") ++ suf)
      by (by rewrite string_app_assoc).
    rewrite Happ in H.
    assert (Hlen' : (String.length ((pre ++ String c "") ++ suf) <= 255)%nat).
    { rewrite !string_length_app. simpl. lia. }
    assert (Hf' : (fuel <= String.length suf)%nat) by lia.
    destruct (Ascii.eqb c space || Ascii.eqb c tab);
      exact (IH suf (pre ++ String c "") _ _ Hlen' H Hf').
Qed.

(** After a header line that the header loop can walk, the constructor
    reads a first row and enters the loop with the fresh tables. *)
Lemma load_after_header (raw : PoreModel A) (uninit : Row A) (fuel : nat)
    (header body : string) (c : bool) :
  header_ok header = true ->
  (String.length header < fuel)%nat ->
  PoreModel_load KLEN raw uninit fuel (Some (header ++ String newline body)) c
  = (let '(s, v, lam) :=
       read_row (columns header 0 true)
         {| buf := body; eofbit := false; failbit := false |} (start_locals uninit) in
     '(t, lam) ← read_loop KLEN fuel (columns header 0 true) (to_u16 (kmer_count KLEN)) c
                   s v lam (init_tables (to_u16 (kmer_count KLEN)));
     Some (finish raw (to_u16 (kmer_count KLEN)) t lam, t_cerr t)).
Proof.
  intros Hh Hf. unfold PoreModel_load.
  cbn [open getline good eofbit failbit negb andb buf].
  pose proof Hh as Hh'. unfold header_ok in Hh'. apply andb_true_iff in Hh' as [Hnl _].
  rewrite take_line_header by done.
  rewrite count_cols_header by done. reflexivity.
Qed.

(** Without enough loop tests, or with them, the header loop of a header
    line it can walk never counts anything but its columns. *)
Lemma load_after_header_any (raw : PoreModel A) (uninit : Row A) (fuel : nat)
    (header body : string) (c : bool) :
  header_ok header = true ->
  PoreModel_load KLEN raw uninit fuel (Some (header ++ String newline body)) c = None \/
  PoreModel_load KLEN raw uninit fuel (Some (header ++ String newline body)) c
  = (let '(s, v, lam) :=
       read_row (columns header 0 true)
         {| buf := body; eofbit := false; failbit := false |} (start_locals uninit) in
     '(t, lam) ← read_loop KLEN fuel (columns header 0 true) (to_u16 (kmer_count KLEN)) c
                   s v lam (init_tables (to_u16 (kmer_count KLEN)));
     Some (finish raw (to_u16 (kmer_count KLEN)) t lam, t_cerr t)).
Proof.
  intros Hh. unfold PoreModel_load.
  cbn [open getline good eofbit failbit negb andb buf].
  pose proof Hh as Hh'. unfold header_ok in Hh'. apply andb_true_iff in Hh' as [Hnl Hlen].
  apply Nat.leb_le in Hlen.
  rewrite take_line_header by done.
  destruct (count_cols fuel header 0 0 true) as [n|] eqn:E; [|by left].
  right. apply (count_cols_some fuel header "" 0 true n Hlen) in E. subst n. reflexivity.
Qed.

(** ** The loop over well-formed rows *)

Lemma read_loop_S (fuel : nat) (n count : Z) (c : bool) (s : ifstream) (v : Row A)
    (lam : float) (t : Tables A) :
  read_loop KLEN (S fuel) n count c s v lam t
  = loop_rest KLEN fuel n count c s v
      (store_row KLEN count c t (kmer_str v) (lv_mean v) (lv_stdv v)).
Proof. reflexivity. Qed.

Lemma skipws_row (n : Z) (r : FileRow) (rest : string) :
  row_ok n r = true -> skipws (render_row r rest) = render_row r rest.
Proof.
  intros Hr. unfold render_row. apply skipws_token.
  unfold row_ok in Hr. by andb_hyps.
Qed.

(** Every well-formed row ahead costs one pass: the loop stores it and
    arrives, with the last of them in hand, at what follows the rows. *)
Lemma loop_rest_rows (n count : Z) (c : bool) (rest : string) (rows : list FileRow) :
  forall (fuel : nat) (s : ifstream) (v : Row A) (t : Tables A),
    good s = true ->
    skipws (buf s) = skipws (render_rows_then rows rest) ->
    Forall (fun r => row_ok n r = true) rows ->
    exists (s' : ifstream) (v' : Row A),
      loop_rest KLEN (length rows + fuel) n count c s v t
      = loop_rest KLEN fuel n count c s' v' (store_rows KLEN count c t rows) /\
      good s' = true /\
      skipws (buf s') = skipws rest /\
      (rows = [] -> v' = v) /\
      (forall r, last rows = Some r ->
         in_hand v' r /\ ((n >=? 7)%Z = true -> lambda v' = row_lam n r)).
Proof.
  induction rows as [|r rows IH]; intros fuel s v t Hg Hb Hok.
  - exists s, v. repeat split; try done.
  - apply Forall_cons in Hok as [Hr Hok].
    cbn [render_rows_then fold_right] in Hb. rewrite (skipws_row n) in Hb by done.
    destruct (read_row_fields_full n s v r (render_rows_then rows rest) Hg Hb Hr)
      as (v1 & lam1 & E1 & Hh & _ & Hl).
    cbn [length Nat.add]. unfold loop_rest at 1. rewrite E1. cbn [eof eofbit].
    rewrite read_loop_S, (store_in_hand _ _ _ _ r Hh).
    destruct (IH fuel
                {| buf := String newline (render_rows_then rows rest);
                   eofbit := false; failbit := false |}
                v1 (store_file_row KLEN count c t r))
      as (s' & v' & E & Hg' & Hb' & Hnil & Hlast); [reflexivity | | done |].
    { cbn [buf skipws]. by rewrite isspace_newline. }
    exists s', v'. split; [exact E|]. split; [done|]. split; [done|].
    split; [done|].
    intros r' Hr'. destruct rows as [|r2 rows2].
    + cbn in Hr'. injection Hr' as <-. rewrite (Hnil eq_refl). split; assumption.
    + apply Hlast. rewrite last_cons in Hr'.
      destruct (last (r2 :: rows2)) eqn:El; [done|]. by apply last_None in El.
Qed.

Lemma read_row_at_end_lam (n : Z) (s : ifstream) (v : Row A) :
  good s = true -> skipws (buf s) = "" ->
  read_row n s v
  = ({| buf := ""; eofbit := true; failbit := true |}, v,
     if (n >=? 7)%Z then lambda v else f_of_int (-1)).
Proof.
  intros Hg Hb. destruct v as [k mu sd a b l w].
  unfold read_row, extract_string. rewrite (sentry_at_end s Hg Hb).
  cbn [kmer_str lv_mean lv_stdv sd_mean sd_stdv lambda weight].
  destruct (n >=? 7)%Z; [|destruct (n =? 3)%Z; [|destruct (n =? 4)%Z]];
    rewrite !extract_float_not_good by done; reflexivity.
Qed.

(** The loop never ends once a row with a malformed [level_mean] lies
    ahead. *)
Lemma loop_rest_bad_mean (n count : Z) (c : bool) (k text acc rest : string)
    (rows : list FileRow) :
  token_ok k = true ->
  scan_float (skipws text) = (acc, rest) -> rest <> "" ->
  f_of_string acc = None ->
  forall (fuel : nat) (s : ifstream) (v : Row A) (t : Tables A),
    good s = true ->
    skipws (buf s) = skipws (render_rows_then rows (k ++ String tab text)) ->
    Forall (fun r => row_ok n r = true) rows ->
    loop_rest KLEN fuel n count c s v t = None.
Proof.
  intros Hk Hscan Hrest Hnone.
  induction rows as [|r rows IH]; intros fuel s v t Hg Hb Hok.
  - cbn [render_rows_then fold_right] in Hb. rewrite skipws_token in Hb by done.
    destruct (read_row_bad_mean n s v k text acc rest Hg Hb Hk Hscan Hrest Hnone)
      as (s' & v' & lam & E & He & Hf).
    unfold loop_rest. rewrite E. unfold eof. rewrite He.
    by apply read_loop_failed.
  - apply Forall_cons in Hok as [Hr Hok].
    cbn [render_rows_then fold_right] in Hb. rewrite (skipws_row n) in Hb by done.
    destruct (read_row_fields_full n s v r _ Hg Hb Hr) as (v1 & lam1 & E1 & Hh & _).
    unfold loop_rest. rewrite E1. cbn [eof eofbit].
    destruct fuel as [|fuel]; [done|].
    rewrite read_loop_S. apply IH; [reflexivity | | done].
    cbn [buf skipws]. by rewrite isspace_newline.
Qed.

(** ** Files that are not well formed *)

(** X1: a last row that is not closed by a newline is read but neither
    checked nor stored when rows precede it: the constructor returns the
    tables and the diagnostics of the rows before it. *)
Theorem unterminated_last_row_dropped (raw : PoreModel A) (uninit : Row A) (fuel : nat)
    (header : string) (r : FileRow) (rows : list FileRow) (last_row : FileRow) (c : bool) :
  let count := to_u16 (kmer_count KLEN) in
  let t := store_rows KLEN count c (init_tables count) (r :: rows) in
  header_ok header = true ->
  Forall (fun r => row_ok (columns header 0 true) r = true) (r :: rows) ->
  row_ok (columns header 0 true) last_row = true ->
  (String.length header < fuel)%nat ->
  (length (r :: rows) <= fuel)%nat ->
  exists lam,
    PoreModel_load KLEN raw uninit fuel
      (Some (header
               ++ String newline (render_rows_then (r :: rows) (render_last last_row)))) c
    = Some (finish raw count t lam, t_cerr t).
Proof.
  intros count t Hh Hok Hlast Hfh Hfr. subst count t.
  rewrite load_after_header by done.
  set (n := columns header 0 true) in *.
  apply Forall_cons in Hok as [Hr Hrows].
  destruct (read_row_fields_full n
              {| buf := render_rows_then (r :: rows) (render_last last_row);
                 eofbit := false; failbit := false |}
              (start_locals uninit) r (render_rows_then rows (render_last last_row))
              eq_refl) as (v1 & lam1 & -> & Hh1 & _); [by apply (skipws_row n) | done |].
  cbv beta iota.
  destruct fuel as [|f]; [simpl in Hfr; lia|].
  rewrite read_loop_S, (store_in_hand _ _ _ _ r Hh1).
  replace f with (length rows + (f - length rows))%nat by (simpl in Hfr; lia).
  destruct (loop_rest_rows n (to_u16 (kmer_count KLEN)) c (render_last last_row) rows
              (f - length rows)
              {| buf := String newline (render_rows_then rows (render_last last_row));
                 eofbit := false; failbit := false |}
              v1 (store_file_row KLEN (to_u16 (kmer_count KLEN)) c
                    (init_tables (to_u16 (kmer_count KLEN))) r))
    as (s' & v' & -> & Hg' & Hb' & _); [reflexivity | | done |].
  { cbn [buf skipws]. by rewrite isspace_newline. }
  assert (Hsk : skipws (render_last last_row) = render_last last_row).
  { unfold render_last. apply skipws_token. unfold row_ok in Hlast. by andb_hyps. }
  rewrite Hsk in Hb'.
  destruct (read_row_last n s' v' last_row Hg' Hb' Hlast) as (v2 & lam2 & E2 & _).
  unfold loop_rest. rewrite E2. cbn [eof eofbit mbind option_bind].
  by exists lam2.
Qed.

(** X2: a single row that is not closed by a newline is stored all the
    same, because the body of the [do ... while] loop runs once before
    [eof()] is tested. *)
Theorem single_unterminated_row_stored (raw : PoreModel A) (uninit : Row A) (fuel : nat)
    (header : string) (only : FileRow) (c : bool) :
  let count := to_u16 (kmer_count KLEN) in
  let t := store_file_row KLEN count c (init_tables count) only in
  header_ok header = true ->
  row_ok (columns header 0 true) only = true ->
  (String.length header < fuel)%nat ->
  exists lam,
    PoreModel_load KLEN raw uninit fuel
      (Some (header ++ String newline (render_last only))) c
    = Some (finish raw count t lam, t_cerr t).
Proof.
  intros count t Hh Hok Hfh. subst count t.
  rewrite load_after_header by done.
  set (n := columns header 0 true) in *.
  assert (Hsk : skipws (render_last only) = render_last only).
  { unfold render_last. apply skipws_token. unfold row_ok in Hok. by andb_hyps. }
  destruct (read_row_last n
              {| buf := render_last only; eofbit := false; failbit := false |}
              (start_locals uninit) only eq_refl Hsk Hok) as (v1 & lam1 & -> & Hh1).
  cbv beta iota.
  destruct fuel as [|f]; [lia|].
  rewrite read_loop_S, (store_in_hand _ _ _ _ only Hh1).
  destruct (read_row_not_good n {| buf := ""; eofbit := true; failbit := false |} v1 eq_refl)
    as (s2 & v2 & lam2 & E2 & He & _).
  unfold loop_rest. rewrite E2. unfold eof. rewrite He.
  cbn [eofbit mbind option_bind]. by exists lam2.
Qed.

(** X3: a [level_mean] field from which no number can be extracted
    makes the constructor loop for ever.  When the characters that
    [operator>>] takes from the field (the longest beginning that can go
    on a number, possibly none) do not convert, and the input goes on
    after them, [failbit] is set before the end of the input, no later
    extraction can reach it, and [eof()] stays false. *)
Theorem malformed_mean_never_returns (raw : PoreModel A) (uninit : Row A)
    (header : string) (rows : list FileRow) (k text acc rest : string) (c : bool) :
  header_ok header = true ->
  Forall (fun r => row_ok (columns header 0 true) r = true) rows ->
  token_ok k = true ->
  scan_float (skipws text) = (acc, rest) -> rest <> "" ->
  f_of_string acc = None ->
  forall fuel : nat,
    PoreModel_load KLEN raw uninit fuel
      (Some (header
               ++ String newline (render_rows_then rows (k ++ String tab text)))) c
    = None.
Proof.
  intros Hh Hok Hk Hscan Hrest Hnone fuel.
  destruct (load_after_header_any raw uninit fuel header
              (render_rows_then rows (k ++ String tab text)) c Hh)
    as [E|E]; [exact E|]. rewrite E. clear E.
  set (n := columns header 0 true) in *.
  destruct rows as [|r rows].
  - destruct (read_row_bad_mean n
                {| buf := k ++ String tab text; eofbit := false; failbit := false |}
                (start_locals uninit) k text acc rest eq_refl)
      as (s' & v' & lam & E & He & Hf); [by apply skipws_token | done..|].
    cbn [render_rows_then fold_right]. rewrite E.
    by rewrite read_loop_failed.
  - apply Forall_cons in Hok as [Hr Hrows].
    destruct (read_row_fields_full n
                {| buf := render_rows_then (r :: rows) (k ++ String tab text);
                   eofbit := false; failbit := false |}
                (start_locals uninit) r
                (render_rows_then rows (k ++ String tab text))
                eq_refl) as (v1 & lam1 & -> & Hh1 & _); [by apply (skipws_row n) | done |].
    cbv beta iota.
    destruct fuel as [|f]; [done|].
    rewrite read_loop_S.
    rewrite (loop_rest_bad_mean n _ c k text acc rest rows); try done;
      cbn [buf skipws]; by rewrite isspace_newline.
Qed.

(** X4: a header line of more than 255 characters makes the constructor
    loop for ever in the header loop, whose [u8] counter wraps around
    before it reaches the length of the line. *)
Theorem long_header_never_returns (raw : PoreModel A) (uninit : Row A)
    (header body : string) (c : bool) :
  no_newline header = true ->
  (255 < String.length header)%nat ->
  forall fuel : nat,
    PoreModel_load KLEN raw uninit fuel (Some (header ++ String newline body)) c = None.
Proof.
  intros Hnl Hlen fuel. unfold PoreModel_load.
  cbn [open getline good eofbit failbit negb andb buf].
  rewrite take_line_header by done.
  by rewrite count_cols_index_bounded.
Qed.

(** X5: a file with a header line and no rows is not an error: the body
    of the loop runs once on the locals as they were before any read, an
    empty k-mer string and uninitialised numbers, and the constructor
    returns with whatever [store_row] makes of them. *)
Theorem header_only_stores_uninitialized (raw : PoreModel A) (uninit : Row A) (fuel : nat)
    (header blank : string) (c : bool) :
  let count := to_u16 (kmer_count KLEN) in
  let t := store_row KLEN count c (init_tables count)
             "" (lv_mean uninit) (lv_stdv uninit) in
  header_ok header = true ->
  skipws blank = "" ->
  (String.length header < fuel)%nat ->
  exists lam,
    PoreModel_load KLEN raw uninit fuel (Some (header ++ String newline blank)) c
    = Some (finish raw count t lam, t_cerr t).
Proof.
  intros count t Hh Hblank Hfh. subst count t.
  rewrite load_after_header by done.
  rewrite (read_row_at_end_lam _ {| buf := blank; eofbit := false; failbit := false |})
    by done.
  cbv beta iota.
  destruct fuel as [|f]; [lia|].
  rewrite read_loop_S.
  destruct (read_row_not_good (columns header 0 true)
              {| buf := ""; eofbit := true; failbit := true |} (start_locals uninit) eq_refl)
    as (s2 & v2 & lam2 & E2 & He & _).
  unfold loop_rest. rewrite E2. unfold eof. rewrite He.
  cbn [eofbit mbind option_bind]. by exists lam2.
Qed.

(** X6: for a well-formed file, [lambda_] is left at the [lambda] field
    of the last row when the header has seven or more columns, and at
    [-1] otherwise. *)
Theorem lambda_is_last_row (raw : PoreModel A) (uninit : Row A) (fuel : nat)
    (header : string) (r : FileRow) (rows : list FileRow) (last_row : FileRow) (c : bool) :
  header_ok header = true ->
  Forall (fun r => row_ok (columns header 0 true) r = true) (r :: rows) ->
  last (r :: rows) = Some last_row ->
  (String.length header < fuel)%nat ->
  (length (r :: rows) <= fuel)%nat ->
  exists (m : PoreModel A) (err : list string),
    PoreModel_load KLEN raw uninit fuel (Some (render header (r :: rows))) c = Some (m, err) /\
    lambda_ m = row_lam (columns header 0 true) last_row.
Proof.
  intros Hh Hok Hlast Hfh Hfr. unfold render.
  change (render_rows (r :: rows)) with (render_rows_then (r :: rows) "").
  rewrite load_after_header by done.
  set (n := columns header 0 true) in *.
  apply Forall_cons in Hok as [Hr Hrows].
  destruct (read_row_fields_full n
              {| buf := render_rows_then (r :: rows) ""; eofbit := false; failbit := false |}
              (start_locals uninit) r (render_rows_then rows "") eq_refl)
    as (v1 & lam1 & -> & Hh1 & _ & Hl1); [by apply (skipws_row n) | done |].
  cbv beta iota.
  destruct fuel as [|f]; [simpl in Hfr; lia|].
  rewrite read_loop_S.
  replace f with (length rows + (f - length rows))%nat by (simpl in Hfr; lia).
  destruct (loop_rest_rows n (to_u16 (kmer_count KLEN)) c "" rows (f - length rows)
              {| buf := String newline (render_rows_then rows "");
                 eofbit := false; failbit := false |}
              v1 (store_row KLEN (to_u16 (kmer_count KLEN)) c
                    (init_tables (to_u16 (kmer_count KLEN)))
                    (kmer_str v1) (lv_mean v1) (lv_stdv v1)))
    as (s' & v' & -> & Hg' & Hb' & Hnil & Hlast'); [reflexivity | | done |].
  { cbn [buf skipws]. by rewrite isspace_newline. }
  unfold loop_rest. rewrite (read_row_at_end_lam n s' v') by done.
  cbn [eof eofbit mbind option_bind].
  eexists _, _. split; [reflexivity|]. cbn [finish lambda_].
  unfold row_lam in *.
  destruct (n >=? 7)%Z eqn:E7; [|done].
  destruct rows as [|r2 rows2].
  - cbn in Hlast. injection Hlast as <-. rewrite (Hnil eq_refl). by apply Hl1.
  - rewrite last_cons in Hlast.
    destruct (last (r2 :: rows2)) as [rl|] eqn:El; [|by apply last_None in El].
    injection Hlast as <-.
    destruct (Hlast' rl eq_refl) as [_ Hl']. by apply Hl'.
Qed.

End LoaderEdges.

(** * Further properties of the tables *)

Section TableFacts.
Context {A : Arith} {L : LoaderArith A} {C : KmerCodec}.
Variable KLEN : Z.
Import Stream ModelFile.

Lemma to_u16_range (z : Z) : (0 <= to_u16 z < 65536)%Z.
Proof. unfold to_u16. apply Z.mod_pos_bound. lia. Qed.

Lemma row_kmer_range (c : bool) (k : string) : (0 <= row_kmer KLEN c k < 65536)%Z.
Proof. unfold row_kmer. destruct c; apply to_u16_range. Qed.

Lemma kmer_valid_range (count kmer : Z) :
  kmer_invalid count kmer = false -> (0 <= kmer < count)%Z.
Proof.
  unfold kmer_invalid. intros H. apply orb_false_iff in H as [H1 H2].
  apply Z.ltb_ge in H1. rewrite Z.geb_leb in H2. apply Z.leb_gt in H2. lia.
Qed.

(** A property of the tables that [store_row] keeps is kept by the whole
    read loop, whatever the stream delivers. *)
Lemma read_loop_invariant (P : Tables A -> Prop) (count : Z) (c : bool) :
  (forall t k mu sd, P t -> P (store_row KLEN count c t k mu sd)) ->
  forall (fuel : nat) (n : Z) (s : ifstream) (v : Row A) (lam : float)
         (t t' : Tables A) (lam' : float),
    P t ->
    read_loop KLEN fuel n count c s v lam t = Some (t', lam') ->
    P t'.
Proof.
  intros Hstep fuel. induction fuel as [|fuel IH]; intros n s v lam t t' lam' Ht; [done|].
  cbn [read_loop].
  destruct (read_row n s v) as [[s1 v1] lam1].
  destruct (eof s1).
  - intros [= <- <-]. by apply Hstep.
  - apply IH. by apply Hstep.
Qed.

Lemma store_row_sentinel (count : Z) (c : bool) (x : float) (t : Tables A)
    (k : string) (mu sd : float) :
  sentinel_at count x t -> sentinel_at count x (store_row KLEN count c t k mu sd).
Proof.
  intros (Hm & Hv & Hd). unfold store_row, sentinel_at.
  destruct (kmer_invalid count (row_kmer KLEN c k)) eqn:E; cbn; [done|].
  apply kmer_valid_range in E.
  rewrite !list_lookup_insert_ne by lia. done.
Qed.

Lemma init_tables_sentinel_at (count : Z) :
  sentinel_at count (f_of_int (-1)) (init_tables count).
Proof.
  unfold sentinel_at, init_tables. cbn.
  rewrite list_lookup_insert_eq by (rewrite length_replicate; lia). done.
Qed.

(** X7: whatever the file holds, an object the constructor returns has
    [kmer_count_] in the range of a [u16], three tables of
    [kmer_count_ + 1] slots, the value [-1] in the last slot of each, and
    [kmer_count_] zeros in [rev_comp_ids_]; so [event_match_prob] at the
    id [kmer_count_] is defined and scores against [-1], [-1], [-1]. *)
Theorem constructed_tables_shape (raw : PoreModel A) (uninit : Row A) (fuel : nat)
    (file : option string) (c : bool) (m : PoreModel A) (err : list string) :
  PoreModel_load KLEN raw uninit fuel file c = Some (m, err) ->
  kmer_count_ m = to_u16 (kmer_count KLEN) /\
  (0 <= kmer_count_ m < 65536)%Z /\
  tables_sized m /\
  lv_means_ m !! Z.to_nat (kmer_count_ m) = Some (f_of_int (-1)) /\
  lv_vars_x2_ m !! Z.to_nat (kmer_count_ m) = Some (f_of_int (-1)) /\
  lognorm_denoms_ m !! Z.to_nat (kmer_count_ m) = Some (f_of_int (-1)) /\
  rev_comp_ids_ m = replicate (Z.to_nat (kmer_count_ m)) 0%Z /\
  forall e : float,
    event_match_prob m e (kmer_count_ m)
    = Some (d2f (dsub (ddiv (dneg (dpow (f2d (fsub e (f_of_int (-1)))) 2))
                         (f2d (f_of_int (-1))))
                  (f2d (f_of_int (-1))))).
Proof.
  intros H. pose proof (load_tables_sized KLEN _ _ _ _ _ _ _ H) as Hsz.
  apply load_result in H as (n & s & v & lam0 & t & lam & Hloop & -> & _).
  pose proof (to_u16_range (kmer_count KLEN)) as Hr.
  assert (Hs : sentinel_at (to_u16 (kmer_count KLEN)) (f_of_int (-1)) t).
  { eapply (read_loop_invariant (sentinel_at (to_u16 (kmer_count KLEN)) (f_of_int (-1))));
      [|apply init_tables_sentinel_at|exact Hloop].
    intros. by apply store_row_sentinel. }
  destruct Hs as (Hm & Hv & Hd).
  split; [done|]. split; [exact Hr|]. split; [exact Hsz|].
  split; [exact Hm|]. split; [exact Hv|]. split; [exact Hd|]. split; [done|].
  intros e. unfold event_match_prob, at_. cbn [finish kmer_count_ lv_means_ lv_vars_x2_ lognorm_denoms_].
  destruct (Z.ltb_spec (to_u16 (kmer_count KLEN)) 0) as [?|_]; [lia|].
  rewrite Hm, Hv, Hd. reflexivity.
Qed.

(** ** What the rows leave in the tables *)

Lemma store_file_row_length (count : Z) (c : bool) (t : Tables A) (r : FileRow) :
  length (t_means (store_file_row KLEN count c t r)) = length (t_means t) /\
  length (t_vars_x2 (store_file_row KLEN count c t r)) = length (t_vars_x2 t) /\
  length (t_lognorm_denoms (store_file_row KLEN count c t r))
  = length (t_lognorm_denoms t).
Proof. apply store_row_length. Qed.

Lemma store_rows_length (count : Z) (c : bool) (rows : list FileRow) (t : Tables A) :
  length (t_means (store_rows KLEN count c t rows)) = length (t_means t) /\
  length (t_vars_x2 (store_rows KLEN count c t rows)) = length (t_vars_x2 t) /\
  length (t_lognorm_denoms (store_rows KLEN count c t rows))
  = length (t_lognorm_denoms t).
Proof.
  revert t. induction rows as [|r rows IH]; intros t; [done|].
  unfold store_rows in *. cbn [foldl].
  destruct (IH (store_file_row KLEN count c t r)) as (-> & -> & ->).
  apply store_file_row_length.
Qed.

Lemma store_file_row_other (count : Z) (c : bool) (k : Z) (t : Tables A) (r : FileRow) :
  (0 <= k)%Z -> leaves KLEN count c k r ->
  t_means (store_file_row KLEN count c t r) !! Z.to_nat k = t_means t !! Z.to_nat k /\
  t_vars_x2 (store_file_row KLEN count c t r) !! Z.to_nat k = t_vars_x2 t !! Z.to_nat k /\
  t_lognorm_denoms (store_file_row KLEN count c t r) !! Z.to_nat k
  = t_lognorm_denoms t !! Z.to_nat k.
Proof.
  intros Hk Hleave. unfold store_file_row, store_row.
  fold (row_invalid KLEN count c r).
  destruct (row_invalid KLEN count c r) eqn:E; cbn; [done|].
  destruct Hleave as [?|Hne]; [congruence|].
  pose proof (row_kmer_range c (fr_kmer r)).
  rewrite !list_lookup_insert_ne by lia. done.
Qed.

Lemma store_rows_other (count : Z) (c : bool) (k : Z) (rows : list FileRow) (t : Tables A) :
  (0 <= k)%Z -> Forall (leaves KLEN count c k) rows ->
  t_means (store_rows KLEN count c t rows) !! Z.to_nat k = t_means t !! Z.to_nat k /\
  t_vars_x2 (store_rows KLEN count c t rows) !! Z.to_nat k = t_vars_x2 t !! Z.to_nat k /\
  t_lognorm_denoms (store_rows KLEN count c t rows) !! Z.to_nat k
  = t_lognorm_denoms t !! Z.to_nat k.
Proof.
  intros Hk. revert t. induction rows as [|r rows IH]; intros t Hall; [done|].
  apply Forall_cons in Hall as [Hr Hall].
  unfold store_rows in *. cbn [foldl].
  destruct (IH (store_file_row KLEN count c t r) Hall) as (-> & -> & ->).
  by apply store_file_row_other.
Qed.

Lemma store_file_row_valid (count : Z) (c : bool) (t : Tables A) (r : FileRow) :
  row_invalid KLEN count c r = false ->
  (Z.to_nat count < length (t_means t))%nat ->
  (Z.to_nat count < length (t_vars_x2 t))%nat ->
  (Z.to_nat count < length (t_lognorm_denoms t))%nat ->
  let k := Z.to_nat (row_kmer KLEN c (fr_kmer r)) in
  t_means (store_file_row KLEN count c t r) !! k = Some (field_value (fr_mean r)) /\
  t_vars_x2 (store_file_row KLEN count c t r) !! k = Some (stored_var r) /\
  t_lognorm_denoms (store_file_row KLEN count c t r) !! k = Some (stored_denom r).
Proof.
  intros E Hm Hv Hd k. subst k. unfold store_file_row, store_row.
  fold (row_invalid KLEN count c r). rewrite E. cbn.
  unfold row_invalid in E. apply kmer_valid_range in E.
  rewrite !list_lookup_insert_eq by lia. done.
Qed.

Lemma store_rows_cons (count : Z) (c : bool) (t : Tables A) (r : FileRow)
    (rows : list FileRow) :
  store_rows KLEN count c t (r :: rows)
  = store_rows KLEN count c (store_file_row KLEN count c t r) rows.
Proof. reflexivity. Qed.

Lemma cerr_store_rows (count : Z) (c : bool) (rows : list FileRow) (t : Tables A) :
  t_cerr (store_rows KLEN count c t rows) = t_cerr t ++ diagnostics KLEN count c rows.
Proof.
  revert t. induction rows as [|r rows IH]; intros t.
  - cbn. by rewrite app_nil_r.
  - unfold store_rows, diagnostics in *. cbn [foldl]. rewrite IH.
    unfold store_file_row at 1, store_row. fold (row_invalid KLEN count c r).
    destruct (row_invalid KLEN count c r) eqn:E; cbn [t_cerr].
    + rewrite filter_cons_True by done. cbn [map]. by rewrite <- app_assoc.
    + rewrite filter_cons_False by (by rewrite E). done.
Qed.

Lemma init_tables_zero (count k : Z) :
  (0 <= k < count)%Z ->
  t_means (init_tables count) !! Z.to_nat k = Some (f_of_int 0) /\
  t_vars_x2 (init_tables count) !! Z.to_nat k = Some (f_of_int 0) /\
  t_lognorm_denoms (init_tables count) !! Z.to_nat k = Some (f_of_int 0).
Proof.
  intros Hk. unfold init_tables. cbn.
  rewrite list_lookup_insert_ne by lia.
  rewrite lookup_replicate_2 by lia. done.
Qed.

(** X8: reading back what was loaded.  In a well-formed file, the slot
    of an id holds what the last row that names it and passes the check
    wrote: its level mean, twice the square of its level deviation, and
    [log(sqrt(pi * that))]; earlier rows for the same id are overwritten. *)
Theorem last_row_for_id_wins (raw : PoreModel A) (uninit : Row A) (fuel : nat)
    (header : string) (pre : list FileRow) (r : FileRow) (post : list FileRow) (c : bool) :
  let count := to_u16 (kmer_count KLEN) in
  let k := row_kmer KLEN c (fr_kmer r) in
  header_ok header = true ->
  Forall (fun r => row_ok (columns header 0 true) r = true) (pre ++ r :: post) ->
  row_invalid KLEN count c r = false ->
  Forall (leaves KLEN count c k) post ->
  (String.length header < fuel)%nat ->
  (length (pre ++ r :: post) <= fuel)%nat ->
  exists (m : PoreModel A) (err : list string),
    PoreModel_load KLEN raw uninit fuel (Some (render header (pre ++ r :: post))) c
    = Some (m, err) /\
    lv_means_ m !! Z.to_nat k = Some (field_value (fr_mean r)) /\
    lv_vars_x2_ m !! Z.to_nat k = Some (stored_var r) /\
    lognorm_denoms_ m !! Z.to_nat k = Some (stored_denom r).
Proof.
  intros count k Hh Hok Hvalid Hpost Hfh Hfr.
  assert (Hrows : exists r0 rows0, pre ++ r :: post = r0 :: rows0).
  { destruct pre as [|p pre]; [by exists r, post | by exists p, (pre ++ r :: post)]. }
  destruct Hrows as (r0 & rows0 & Hrows).
  rewrite Hrows in Hok, Hfr |- *.
  destruct (load_well_formed KLEN raw uninit fuel header r0 rows0 c Hh Hok Hfh Hfr)
    as (lam & E).
  eexists _, _. split; [exact E|].
  cbn [finish lv_means_ lv_vars_x2_ lognorm_denoms_].
  rewrite <- Hrows, store_rows_app, store_rows_cons. fold count.
  pose proof (row_kmer_range c (fr_kmer r)) as Hk. fold k in Hk.
  destruct (store_rows_other count c k post
              (store_file_row KLEN count c
                 (store_rows KLEN count c (init_tables count) pre) r)
              ltac:(lia) Hpost) as (-> & -> & ->).
  destruct (store_rows_length count c pre (init_tables count)) as (Lm & Lv & Ld).
  destruct (init_tables_length count) as (Im & Iv & Id).
  apply store_file_row_valid; [done|lia..].
Qed.

(** X9: an id that no row of a well-formed file writes keeps the zero
    that [resize] put in its slot, in all three tables: a k-mer missing
    from the file looks like one with level mean 0 and variance 0. *)
Theorem missing_id_stays_zero (raw : PoreModel A) (uninit : Row A) (fuel : nat)
    (header : string) (r : FileRow) (rows : list FileRow) (c : bool) (k : Z) :
  let count := to_u16 (kmer_count KLEN) in
  header_ok header = true ->
  Forall (fun r => row_ok (columns header 0 true) r = true) (r :: rows) ->
  (0 <= k < count)%Z ->
  Forall (leaves KLEN count c k) (r :: rows) ->
  (String.length header < fuel)%nat ->
  (length (r :: rows) <= fuel)%nat ->
  exists (m : PoreModel A) (err : list string),
    PoreModel_load KLEN raw uninit fuel (Some (render header (r :: rows))) c
    = Some (m, err) /\
    lv_means_ m !! Z.to_nat k = Some (f_of_int 0) /\
    lv_vars_x2_ m !! Z.to_nat k = Some (f_of_int 0) /\
    lognorm_denoms_ m !! Z.to_nat k = Some (f_of_int 0).
Proof.
  intros count Hh Hok Hk Hleave Hfh Hfr.
  destruct (load_well_formed KLEN raw uninit fuel header r rows c Hh Hok Hfh Hfr)
    as (lam & E).
  eexists _, _. split; [exact E|].
  cbn [finish lv_means_ lv_vars_x2_ lognorm_denoms_]. fold count.
  destruct (store_rows_other count c k (r :: rows) (init_tables count)
              ltac:(lia) Hleave) as (-> & -> & ->).
  by apply init_tables_zero.
Qed.

(** X10: for a well-formed file, what the constructor writes to
    [std::cerr] is the line [Error: kmer '<id>' is invalid], with the id
    in decimal, once for each row that fails the id check, in file
    order, and nothing else. *)
Theorem diagnostics_are_invalid_rows (raw : PoreModel A) (uninit : Row A) (fuel : nat)
    (header : string) (r : FileRow) (rows : list FileRow) (c : bool) :
  let count := to_u16 (kmer_count KLEN) in
  header_ok header = true ->
  Forall (fun r => row_ok (columns header 0 true) r = true) (r :: rows) ->
  (String.length header < fuel)%nat ->
  (length (r :: rows) <= fuel)%nat ->
  exists m : PoreModel A,
    PoreModel_load KLEN raw uninit fuel (Some (render header (r :: rows))) c
    = Some (m,
            map (fun r =>
                   ("Error: kmer '"
                      ++ NilZero.string_of_int (Z.to_int (row_kmer KLEN c (fr_kmer r)))
                      ++ "' is invalid" ++ String newline "")%string)
              (filter (fun r => row_invalid KLEN count c r = true) (r :: rows))).
Proof.
  intros count Hh Hok Hfh Hfr.
  destruct (load_well_formed KLEN raw uninit fuel header r rows c Hh Hok Hfh Hfr)
    as (lam & E).
  eexists. rewrite E. rewrite cerr_store_rows. reflexivity.
Qed.

End TableFacts.

(** * Further properties of the header loop *)

Section HeaderFacts.
Import Stream ModelFile.
Local Open Scope string_scope.

Lemma columns_in_word (w rest : string) (nc : Z) :
  no_blank w = true -> columns (w ++ rest) nc false = columns rest nc false.
Proof.
  induction w as [|ch w IH]; [done|]. cbn [no_blank append columns]. intros H.
  apply andb_true_iff in H as [Hc Hw]. apply negb_true_iff in Hc.
  rewrite Hc. by apply IH.
Qed.

Lemma columns_word (w rest : string) (nc : Z) :
  word_ok w = true ->
  columns (w ++ rest) nc true = columns rest (to_u8 (nc + 1)) false.
Proof.
  destruct w as [|ch w]; [done|]. cbn [word_ok no_blank append columns]. intros H.
  apply andb_true_iff in H as [Hc Hw]. apply negb_true_iff in Hc.
  rewrite Hc. by apply columns_in_word.
Qed.

Lemma length_join_space (words : list string) :
  Forall (fun w => word_ok w = true) words ->
  (length words <= String.length (join_space words))%nat.
Proof.
  induction 1 as [|w words Hw _ IH]; [done|].
  destruct w as [|ch w]; [done|].
  destruct words as [|w2 words]; [simpl; lia|].
  change (join_space (String ch w :: w2 :: words))
    with (String ch w ++ String space (join_space (w2 :: words))).
  rewrite string_length_app. cbn [String.length length] in *. lia.
Qed.

Lemma columns_join_space (words : list string) (nc : Z) :
  Forall (fun w => word_ok w = true) words ->
  (0 <= nc)%Z -> (nc + Z.of_nat (length words) <= 255)%Z ->
  columns (join_space words) nc true = (nc + Z.of_nat (length words))%Z.
Proof.
  intros Hall. revert nc. induction Hall as [|w words Hw _ IH]; intros nc Hnc Hb.
  - cbn. lia.
  - assert (Hu : to_u8 (nc + 1) = (nc + 1)%Z).
    { unfold to_u8. apply Z.mod_small. cbn [length] in Hb. lia. }
    destruct words as [|w2 words].
    + cbn [join_space]. rewrite <- (string_app_empty w), columns_word by done.
      cbn [columns length]. lia.
    + change (join_space (w :: w2 :: words))
        with (w ++ String space (join_space (w2 :: words))).
      rewrite columns_word by done. cbn [columns].
      rewrite Ascii.eqb_refl. cbn [orb]. rewrite Hu.
      rewrite IH by (cbn [length] in *; lia). cbn [length]. lia.
Qed.

(** X11: the header loop counts words.  For a header line of words
    (no space or tab inside) separated by single spaces and no longer
    than 255 characters, [num_cols] is the number of words; the layout of
    the rows is chosen by that number alone. *)
Theorem header_columns_are_words (fuel : nat) (words : list string) :
  Forall (fun w => word_ok w = true) words ->
  (String.length (join_space words) <= 255)%nat ->
  (String.length (join_space words) < fuel)%nat ->
  count_cols fuel (join_space words) 0 0 true = Some (Z.of_nat (length words)) /\
  more_fields (Z.of_nat (length words))
  = (if (7 <=? length words)%nat then 4
     else if (length words =? 3)%nat then 0
     else if (length words =? 4)%nat then 1 else 3)%nat.
Proof.
  intros Hall Hlen Hfuel.
  pose proof (length_join_space words Hall) as Hw.
  split.
  - pose proof (count_cols_columns (join_space words) "" 0 true fuel Hlen Hfuel) as E.
    change (count_cols fuel (join_space words) 0 0 true
            = Some (columns (join_space words) 0 true)) in E. rewrite E.
    rewrite columns_join_space by (done || lia). f_equal.
  - unfold more_fields.
    destruct (Nat.leb_spec 7 (length words)).
    + destruct (Z.geb_spec (Z.of_nat (length words)) 7); [done|lia].
    + destruct (Z.geb_spec (Z.of_nat (length words)) 7); [lia|].
      destruct (Nat.eqb_spec (length words) 3) as [->|?]; [done|].
      destruct (Z.eqb_spec (Z.of_nat (length words)) 3); [lia|].
      destruct (Nat.eqb_spec (length words) 4) as [->|?]; [done|].
      destruct (Z.eqb_spec (Z.of_nat (length words)) 4); [lia|done].
Qed.

End HeaderFacts.

(** * Further properties of the normalizer and the scorer *)

Section NormalizerShape.
Context {A : Arith} {EventRest : Type}.

(** X12: [normalize] changes nothing but the values: the batch keeps its
    length, the events keep their other members and their order, and the
    [Event] overload leaves in [mean] what the scalar overload computes
    from the means. *)
Theorem normalize_keeps_structure (m : PoreModel A) (norm : NormParams A) :
  (forall batch : list float, length (normalize m batch norm) = length batch) /\
  (forall events : list (Event A EventRest),
     length (normalize_events m events norm) = length events /\
     map ev_rest (normalize_events m events norm) = map ev_rest events /\
     map mean (normalize_events m events norm) = normalize m (map mean events) norm).
Proof.
  split.
  - intros batch. unfold normalize. by rewrite normalize_loop, length_map.
  - intros events. split; [|split].
    + unfold normalize_events. by rewrite normalize_events_loop, length_map.
    + unfold normalize_events. rewrite normalize_events_loop, map_map. done.
    + apply normalize_events_means.
Qed.

(** X13: parameters whose scale does not compare equal to zero are
    applied as they are, [x -> scale * x + shift] on every element, and
    the model the call is made on plays no part. *)
Theorem normalize_explicit_is_affine (m m' : PoreModel A) (norm : NormParams A) :
  feq (scale norm) (f_of_int 0) = false ->
  (forall batch : list float,
     normalize m batch norm = map (affine norm) batch /\
     normalize m batch norm = normalize m' batch norm) /\
  (forall events : list (Event A EventRest),
     normalize_events m events norm = map (affine_event norm) events /\
     normalize_events m events norm = normalize_events m' events norm).
Proof.
  intros H. split; intros l.
  - by rewrite !normalize_nonzero_scale.
  - by rewrite !normalize_events_nonzero_scale.
Qed.

End NormalizerShape.

(** X14: the empty batch.  [normalize] leaves it empty in every
    arithmetic; in IEEE arithmetic [get_norm_params] on it divides zero by
    zero, and both parameters are NaN whatever the model holds. *)
Theorem empty_batch_is_degenerate :
  (forall (A : Arith) (m : PoreModel A) (norm : NormParams A),
     normalize m [] norm = []) /\
  (forall m : PoreModel IEEE.ieee_arith,
     get_norm_params m [] = @mkNormParams IEEE.ieee_arith S754_nan S754_nan).
Proof.
  split; [done|].
  intros m. unfold get_norm_params. cbn.
  destruct (model_stdv_ m), (model_mean_ m); reflexivity.
Qed.

Section RealNormalizerMore.
Import RealArith.
Local Open Scope R_scope.
Implicit Types (m : PoreModel real_arith) (batch : list R).

Lemma Reqb_refl (x : R) : Reqb x x = true.
Proof. unfold Reqb. by destruct (Req_dec_T x x). Qed.

Lemma normalize_default_real m batch :
  normalize m batch norm_default
  = map (fun x => scale (get_norm_params m batch) * x + shift (get_norm_params m batch))
      batch.
Proof.
  rewrite normalize_zero_scale by apply Reqb_refl. apply affine_real.
Qed.

Lemma map_id_ext (f : R -> R) (l : list R) : (forall x, f x = x) -> map f l = l.
Proof. intros H. induction l as [|x l IH]; simpl; [done | by rewrite H, IH]. Qed.

(** X15: normalizing twice is normalizing once.  In exact real
    arithmetic, for a model of positive deviation and a batch of non-zero
    spread, a second call with the default sentinel estimates scale 1 and
    shift 0 and leaves the normalized batch as it is. *)
Theorem normalize_idempotent_real m batch :
  0 < model_stdv_ m ->
  Stats.pop_stdev batch <> 0 ->
  get_norm_params m (normalize m batch norm_default) = {| shift := 0; scale := 1 |} /\
  normalize m (normalize m batch norm_default) norm_default
  = normalize m batch norm_default.
Proof.
  intros HG Hs.
  destruct (normalize_estimate_moments m batch ltac:(lra) Hs) as [Hmean Hstdv].
  rewrite <- normalize_default_any_scale in Hmean, Hstdv by apply Reqb_refl.
  set (b' := normalize m batch norm_default) in *.
  assert (Hp : get_norm_params m b' = {| shift := 0; scale := 1 |}).
  { rewrite get_norm_params_real, Hmean, Hstdv.
    assert (Hone : model_stdv_ m / model_stdv_ m = 1)
      by (unfold Rdiv; apply Rinv_r; lra).
    rewrite Hone. f_equal. lra. }
  split; [exact Hp|].
  rewrite (normalize_default_real m b'), Hp. cbn [scale shift].
  apply map_id_ext. intros x. lra.
Qed.

(** X16: the result does not depend on the gain and the offset of the
    input.  In exact real arithmetic, a batch of non-zero spread and the
    same batch mapped through [x -> a * x + b] with [a > 0] normalize to
    the same values. *)
Theorem normalize_invariant_real m batch (a b : R) :
  0 < a ->
  Stats.pop_stdev batch <> 0 ->
  normalize m (map (fun x => a * x + b) batch) norm_default
  = normalize m batch norm_default.
Proof.
  intros Ha Hs.
  assert (Hl : batch <> []) by (intros ->; by rewrite pop_stdev_nil in Hs).
  rewrite !normalize_default_real, !get_norm_params_real. cbn [scale shift].
  rewrite arith_mean_affine, pop_stdev_affine by (done || lra).
  rewrite map_map. apply map_ext. intros x. field. split; [done|lra].
Qed.

Lemma real_score_at_mean (mu var den : R) : - (mu - mu) ^ 2 / var - den = - den.
Proof. unfold Rdiv. ring. Qed.

Lemma real_score_bound (mu var den x : R) :
  0 < var -> - (x - mu) ^ 2 / var - den <= - den.
Proof.
  intros Hvar.
  assert (Hi : 0 < / var) by (by apply Rinv_0_lt_compat).
  pose proof (pow2_ge_0 (x - mu)) as Hsq.
  assert (Hp : 0 <= (x - mu) ^ 2 * / var) by (apply Rmult_le_pos; lra).
  unfold Rdiv. lra.
Qed.

Lemma real_score_symmetric (mu var den d : R) :
  - (mu + d - mu) ^ 2 / var - den = - (mu - d - mu) ^ 2 / var - den.
Proof. unfold Rdiv. ring. Qed.


End RealNormalizerMore.

(** * The aggregates of a constructed model in exact real arithmetic *)

Section RealTables.
Context {C : KmerCodec}.
Variable KLEN : Z.
Import RealArith Stream ModelFile.
Local Open Scope R_scope.

Lemma sum_insert (l : list R) (k : nat) (x y : R) :
  l !! k = Some y -> Stats.sum (<[k:=x]> l) = Stats.sum l - y + x.
Proof.
  unfold Stats.sum. revert k. induction l as [|z l IH]; intros k H; [done|].
  destruct k as [|k]; cbn in *.
  - injection H as ->. lra.
  - transitivity (z + (foldr Rplus 0 l - y + x)); [f_equal; exact (IH k H) | lra].
Qed.

Lemma sum_take_insert (l : list R) (n k : nat) (x y : R) :
  (k < n)%nat -> l !! k = Some y ->
  Stats.sum (take n (<[k:=x]> l)) = Stats.sum (take n l) - y + x.
Proof.
  intros Hk Hy. rewrite take_insert_lt by done.
  apply sum_insert. by rewrite lookup_take_lt.
Qed.

Lemma sum_cons (x : R) (l : list R) : Stats.sum (x :: l) = x + Stats.sum l.
Proof. reflexivity. Qed.

Lemma Rplus_shuffle (a b d : R) : a - 0 + b + d = a + (b + d).
Proof. lra. Qed.

Lemma sum_replicate_zero (n : nat) : Stats.sum (replicate n 0) = 0.
Proof.
  induction n as [|n IH]; [done|].
  change (0 + Stats.sum (replicate n 0) = 0). rewrite IH. lra.
Qed.

(** While no id is written twice and the slots to be written hold zero,
    the first [count] slots of [lv_means_] sum to what the running sum
    has gained. *)
Lemma sum_means_store_rows (count : Z) (c : bool) (rows : list FileRow)
    (t : Tables real_arith) :
  NoDup (valid_ids KLEN count c rows) ->
  (forall k, In k (valid_ids KLEN count c rows) -> t_means t !! Z.to_nat k = Some 0) ->
  Stats.sum (take (Z.to_nat count) (t_means (store_rows KLEN count c t rows)))
  = Stats.sum (take (Z.to_nat count) (t_means t))
    + Stats.sum (stored_means KLEN count c rows).
Proof.
  revert t. induction rows as [|r rows IH]; intros t Hnd Hz.
  - cbn. lra.
  - rewrite (store_rows_cons KLEN). unfold valid_ids, stored_means in *.
    destruct (row_invalid KLEN count c r) eqn:E.
    + rewrite filter_cons_False in Hnd, Hz |- * by (by rewrite E).
      rewrite IH; [|done|].
      * by rewrite store_row_invalid.
      * intros k Hk. rewrite store_row_invalid by done. by apply Hz.
    + rewrite filter_cons_True in Hnd, Hz |- * by done.
      cbn [map] in Hnd, Hz |- *. apply NoDup_cons in Hnd as [Hnew Hnd].
      pose proof E as Hr. unfold row_invalid in Hr. apply kmer_valid_range in Hr.
      assert (Et : t_means (store_file_row KLEN count c t r)
                   = <[Z.to_nat (row_kmer KLEN c (fr_kmer r)) := field_value (fr_mean r)]>
                       (t_means t)).
      { unfold store_file_row, store_row. fold (row_invalid KLEN count c r).
        by rewrite E. }
      rewrite IH; [|done|].
      * rewrite Et.
        rewrite (sum_take_insert _ _ _ _ 0) by (lia || (apply Hz; by left)).
        rewrite sum_cons. apply Rplus_shuffle.
      * intros k Hk. rewrite Et.
        assert (k <> row_kmer KLEN c (fr_kmer r)).
        { intros ->. apply Hnew. by apply list_elem_of_In. }
        assert (Hin : In k (map (fun r0 => row_kmer KLEN c (fr_kmer r0))
                              (filter (fun r0 => row_invalid KLEN count c r0 = false) rows)))
          by done.
        apply in_map_iff in Hin as (r' & <- & _).
        pose proof (row_kmer_range KLEN c (fr_kmer r')).
        rewrite list_lookup_insert_ne by lia. apply Hz. by right.
Qed.

Lemma init_tables_take (count : Z) :
  take (Z.to_nat count) (t_means (init_tables (A := real_arith) count))
  = replicate (Z.to_nat count) 0.
Proof.
  unfold init_tables. cbn [t_means].
  rewrite take_insert_ge by lia.
  rewrite take_replicate. f_equal. lia.
Qed.

(** X18: when no id is named by two rows that pass the check, the
    aggregates are those of the table.  In exact real arithmetic, for a
    well-formed file, [model_mean_] is the arithmetic mean and
    [model_stdv_] the population standard deviation of the first
    [kmer_count_] slots of [lv_means_], the slots of missing ids counting
    as zero. *)
Theorem aggregates_are_table_moments_real (raw : PoreModel real_arith)
    (uninit : Row real_arith) (fuel : nat) (header : string) (r : FileRow)
    (rows : list FileRow) (c : bool) :
  let count := to_u16 (kmer_count KLEN) in
  header_ok header = true ->
  Forall (fun r => row_ok (columns header 0 true) r = true) (r :: rows) ->
  NoDup (valid_ids KLEN count c (r :: rows)) ->
  (String.length header < fuel)%nat ->
  (length (r :: rows) <= fuel)%nat ->
  exists (m : PoreModel real_arith) (err : list string),
    PoreModel_load KLEN raw uninit fuel (Some (render header (r :: rows))) c
    = Some (m, err) /\
    model_mean_ m = Stats.arith_mean (take (Z.to_nat count) (lv_means_ m)) /\
    model_stdv_ m = Stats.pop_stdev (take (Z.to_nat count) (lv_means_ m)).
Proof.
  intros count Hh Hok Hnd Hfh Hfr.
  destruct (load_well_formed KLEN raw uninit fuel header r rows c Hh Hok Hfh Hfr)
    as (lam & E).
  pose proof (load_stdv KLEN _ _ _ _ _ _ _ E) as [Hc Hs].
  pose proof (load_tables_sized KLEN _ _ _ _ _ _ _ E) as (Hlen & _).
  pose proof (to_u16_range (kmer_count KLEN)) as Hr. fold count in Hr.
  eexists _, _. split; [exact E|].
  set (m := finish raw (to_u16 (kmer_count KLEN)) _ lam) in *.
  assert (Hl : length (take (Z.to_nat count) (lv_means_ m)) = Z.to_nat count).
  { rewrite length_take. rewrite Hlen, Hc. fold count. lia. }
  assert (Hmean : model_mean_ m = Stats.arith_mean (take (Z.to_nat count) (lv_means_ m))).
  { unfold Stats.arith_mean. change (@float real_arith) with R in *. rewrite Hl.
    subst m. cbn [finish model_mean_ lv_means_]. fold count.
    rewrite mean_sum_store_rows.
    rewrite sum_means_store_rows; [|done|].
    - rewrite init_tables_take, sum_replicate_zero.
      change (t_mean_sum (init_tables count)) with (f_of_int 0).
      change (foldl fadd (f_of_int 0) (stored_means KLEN count c (r :: rows)))
        with (foldl Rplus 0 (stored_means KLEN count c (r :: rows))).
      rewrite foldl_Rplus_sum.
      change (f_of_int count) with (IZR count).
      rewrite INR_IZR_INZ, Z2Nat.id by lia. reflexivity.
    - intros k Hk.
      assert (Hin : In k (map (fun r0 => row_kmer KLEN c (fr_kmer r0))
                            (filter (fun r0 => row_invalid KLEN count c r0 = false)
                               (r :: rows)))) by done.
      apply in_map_iff in Hin as (r' & <- & Hf).
      apply list_elem_of_In, list_elem_of_filter in Hf as [Hv _].
      unfold row_invalid in Hv. apply kmer_valid_range in Hv.
      by destruct (init_tables_zero (A := real_arith) count _ Hv) as [Hz _]. }
  split; [exact Hmean|].
  rewrite Hs, Hc. fold count. unfold Stats.pop_stdev.
  change (@float real_arith) with R in *. rewrite Hl, <- Hmean.
  pose proof (foldl_sq_sum (take (Z.to_nat count) (lv_means_ m)) (model_mean_ m) 0) as F.
  simpl in F. simpl. rewrite F, Rplus_0_l.
  rewrite INR_IZR_INZ, Z2Nat.id by lia. reflexivity.
Qed.

End RealTables.

(** * What the constructor takes from the storage *)

Section Storage.
Context {A : Arith} {L : LoaderArith A} {C : KmerCodec}.
Variable KLEN : Z.
Import Stream.

(** X19: the constructor assigns every member but [k_] and
    [complement_].  Constructed over two different storages from the same
    file, the objects agree on the tables, [lambda_], the aggregates,
    [kmer_count_], [loaded_] and [rev_comp_ids_], and the same text goes
    to [std::cerr]; [k_] and [complement_] are what each storage held, so
    the [complement] argument is not recorded in the object. *)
Theorem construction_ignores_storage (raw raw' : PoreModel A) (uninit : Row A)
    (fuel : nat) (file : option string) (c : bool) (m : PoreModel A) (err : list string) :
  PoreModel_load KLEN raw uninit fuel file c = Some (m, err) ->
  k_ m = k_ raw /\ complement_ m = complement_ raw /\
  exists m' : PoreModel A,
    PoreModel_load KLEN raw' uninit fuel file c = Some (m', err) /\
    k_ m' = k_ raw' /\ complement_ m' = complement_ raw' /\
    lv_means_ m' = lv_means_ m /\
    lv_vars_x2_ m' = lv_vars_x2_ m /\
    lognorm_denoms_ m' = lognorm_denoms_ m /\
    lambda_ m' = lambda_ m /\
    model_mean_ m' = model_mean_ m /\
    model_stdv_ m' = model_stdv_ m /\
    kmer_count_ m' = kmer_count_ m /\
    loaded_ m' = loaded_ m /\
    rev_comp_ids_ m' = rev_comp_ids_ m.
Proof.
  unfold PoreModel_load. intros H.
  destruct (getline (open file) "") as [s header].
  destruct (count_cols fuel header 0 0 true) as [n|]; [|done].
  cbn [mbind option_bind] in H |- *.
  destruct (read_row n s _) as [[s' v'] lam0].
  destruct (read_loop KLEN fuel n _ c s' v' lam0 _) as [[t lam]|]; [|done].
  cbn [mbind option_bind] in H |- *. injection H as <- <-.
  split; [done|]. split; [done|].
  eexists. split; [reflexivity|]. done.
Qed.

End Storage.

(** * The further properties on the sample files *)

Lemma unterminated_last_row_dropped_witness :
  exists lam,
    PoreModel_load (C := SampleCodec.codec) SampleFile.KLEN SampleFile.raw SampleFile.uninit
      30 (Some SampleFile.text_unterminated) false
    = Some (finish SampleFile.raw 16
              (ModelFile.store_rows SampleFile.KLEN 16 false (init_tables 16)
                 [SampleEdges.row_AA]) lam,
            []).
Proof.
  apply (unterminated_last_row_dropped (C := SampleCodec.codec) SampleFile.KLEN
           SampleFile.raw SampleFile.uninit 30 SampleFile.header
           SampleEdges.row_AA [] SampleEdges.row_ZZ false).
  - reflexivity.
  - repeat constructor; vm_compute; reflexivity.
  - vm_compute; reflexivity.
  - simpl; lia.
  - simpl; lia.
Defined.

Lemma single_unterminated_row_stored_witness :
  exists lam,
    PoreModel_load (C := SampleCodec.codec) SampleFile.KLEN SampleFile.raw SampleFile.uninit
      30 (Some (SampleFile.header
                  ++ String Stream.newline (render_last SampleEdges.row_AA))%string) false
    = Some (finish SampleFile.raw 16
              (ModelFile.store_rows SampleFile.KLEN 16 false (init_tables 16)
                 [SampleEdges.row_AA]) lam,
            []).
Proof.
  apply (single_unterminated_row_stored (C := SampleCodec.codec) SampleFile.KLEN
           SampleFile.raw SampleFile.uninit 30 SampleFile.header SampleEdges.row_AA false).
  - reflexivity.
  - vm_compute; reflexivity.
  - simpl; lia.
Defined.

Lemma malformed_mean_never_returns_witness :
  PoreModel_load (C := SampleCodec.codec) SampleFile.KLEN SampleFile.raw SampleFile.uninit
    1000
    (Some (SampleFile.header
             ++ String Stream.newline
                  (render_rows_then [SampleEdges.row_AA]
                     ("AC" ++ String Stream.tab SampleEdges.bad_fields)))%string)
    false
  = None.
Proof.
  apply (malformed_mean_never_returns (C := SampleCodec.codec) SampleFile.KLEN
           SampleFile.raw SampleFile.uninit SampleFile.header [SampleEdges.row_AA]
           "AC" SampleEdges.bad_fields "" SampleEdges.bad_fields false).
  - reflexivity.
  - repeat constructor; vm_compute; reflexivity.
  - reflexivity.
  - reflexivity.
  - discriminate.
  - reflexivity.
Defined.

Lemma long_header_never_returns_witness :
  PoreModel_load (C := SampleCodec.codec) SampleFile.KLEN SampleFile.raw SampleFile.uninit
    1000
    (Some (SampleEdges.long_header
             ++ String Stream.newline (ModelFile.render_rows SampleFile.rows))%string)
    false
  = None.
Proof.
  apply (long_header_never_returns (C := SampleCodec.codec) SampleFile.KLEN
           SampleFile.raw SampleFile.uninit SampleEdges.long_header
           (ModelFile.render_rows SampleFile.rows) false).
  - vm_compute; reflexivity.
  - apply Nat.ltb_lt. vm_compute; reflexivity.
Defined.

Lemma header_only_stores_uninitialized_witness :
  exists lam,
    PoreModel_load (C := SampleCodec.codec) SampleFile.KLEN SampleFile.raw SampleFile.uninit
      30 (Some (SampleFile.header ++ String Stream.newline "")%string) false
    = Some (finish SampleFile.raw 16
              (store_row (A := RealArith.real_arith) SampleFile.KLEN 16 false
                 (init_tables 16) "" 0%R 0%R) lam,
            [diagnostic 20]).
Proof.
  apply (header_only_stores_uninitialized (C := SampleCodec.codec) SampleFile.KLEN
           SampleFile.raw SampleFile.uninit 30 SampleFile.header "" false).
  - reflexivity.
  - reflexivity.
  - simpl; lia.
Defined.

Lemma lambda_is_last_row_witness :
  exists m err,
    PoreModel_load (C := SampleCodec.codec) SampleFile.KLEN SampleFile.raw SampleFile.uninit
      60 (Some (ModelFile.render SampleEdges.header7 SampleEdges.rows7)) false
    = Some (m, err) /\
    lambda_ m = ModelFile.field_value "8.5".
Proof.
  apply (lambda_is_last_row (C := SampleCodec.codec) SampleFile.KLEN
           SampleFile.raw SampleFile.uninit 60 SampleEdges.header7
           SampleEdges.row7_AA [SampleEdges.row7_AC] SampleEdges.row7_AC false).
  - reflexivity.
  - repeat constructor; vm_compute; reflexivity.
  - reflexivity.
  - simpl; lia.
  - simpl; lia.
Defined.

Lemma constructed_tables_shape_witness :
  exists m err,
    PoreModel_load (C := SampleCodec.codec) SampleFile.KLEN SampleFile.raw SampleFile.uninit
      30 (Some SampleFile.text) false = Some (m, err) /\
    kmer_count_ m = 16%Z /\
    lv_means_ m !! 16%nat = Some (-1)%R /\
    rev_comp_ids_ m = replicate 16 0%Z.
Proof.
  destruct (load_well_formed (C := SampleCodec.codec) SampleFile.KLEN SampleFile.raw
              SampleFile.uninit 30 SampleFile.header
              (ModelFile.mkFileRow "AA" "90.0" "1.0" [])
              [ModelFile.mkFileRow "ZZ" "5.0" "1.0" [];
               ModelFile.mkFileRow "AC" "95.0" "2.0" []] false
              sample_header_ok sample_rows_ok)
    as (lam & E); [simpl; lia | simpl; lia |].
  eexists _, _. split; [exact E|].
  destruct (constructed_tables_shape (C := SampleCodec.codec) _ _ _ _ _ _ _ _ E)
    as (Hc & _ & _ & Hm & _ & _ & Hr & _).
  rewrite Hc in Hm, Hr. split; [exact Hc|]. split; [exact Hm | exact Hr].
Defined.

Lemma last_row_for_id_wins_witness :
  exists m err,
    PoreModel_load (C := SampleCodec.codec) SampleFile.KLEN SampleFile.raw SampleFile.uninit
      30 (Some (ModelFile.render SampleFile.header
                  [SampleEdges.row_AA; SampleEdges.row_AA_again; SampleEdges.row_AC])) false
    = Some (m, err) /\
    lv_means_ m !! 0%nat = Some (ModelFile.field_value "91.0") /\
    lv_vars_x2_ m !! 0%nat = Some (stored_var SampleEdges.row_AA_again) /\
    lognorm_denoms_ m !! 0%nat = Some (stored_denom SampleEdges.row_AA_again).
Proof.
  apply (last_row_for_id_wins (C := SampleCodec.codec) SampleFile.KLEN
           SampleFile.raw SampleFile.uninit 30 SampleFile.header
           [SampleEdges.row_AA] SampleEdges.row_AA_again [SampleEdges.row_AC] false).
  - reflexivity.
  - repeat constructor; vm_compute; reflexivity.
  - reflexivity.
  - constructor; [right; vm_compute; lia | constructor].
  - simpl; lia.
  - simpl; lia.
Defined.

Lemma missing_id_stays_zero_witness :
  exists m err,
    PoreModel_load (C := SampleCodec.codec) SampleFile.KLEN SampleFile.raw SampleFile.uninit
      30 (Some SampleFile.text) false = Some (m, err) /\
    lv_means_ m !! 5%nat = Some 0%R /\
    lv_vars_x2_ m !! 5%nat = Some 0%R /\
    lognorm_denoms_ m !! 5%nat = Some 0%R.
Proof.
  apply (missing_id_stays_zero (C := SampleCodec.codec) SampleFile.KLEN
           SampleFile.raw SampleFile.uninit 30 SampleFile.header
           SampleEdges.row_AA [SampleEdges.row_ZZ; SampleEdges.row_AC] false 5).
  - reflexivity.
  - repeat constructor; vm_compute; reflexivity.
  - split; [lia | reflexivity].
  - constructor; [right; vm_compute; lia|].
    constructor; [left; reflexivity|].
    constructor; [right; vm_compute; lia|]. constructor.
  - simpl; lia.
  - simpl; lia.
Defined.

Lemma diagnostics_are_invalid_rows_witness :
  exists m,
    PoreModel_load (C := SampleCodec.codec) SampleFile.KLEN SampleFile.raw SampleFile.uninit
      30 (Some SampleFile.text) false
    = Some (m, [("Error: kmer '20' is invalid" ++ String Stream.newline "")%string]).
Proof.
  apply (diagnostics_are_invalid_rows (C := SampleCodec.codec) SampleFile.KLEN
           SampleFile.raw SampleFile.uninit 30 SampleFile.header
           SampleEdges.row_AA [SampleEdges.row_ZZ; SampleEdges.row_AC] false).
  - reflexivity.
  - repeat constructor; vm_compute; reflexivity.
  - simpl; lia.
  - simpl; lia.
Defined.

Lemma header_columns_are_words_witness :
  count_cols 30 SampleFile.header 0 0 true = Some 3%Z /\
  ModelFile.more_fields 3 = 0%nat.
Proof.
  apply (header_columns_are_words 30 SampleEdges.header_words).
  - repeat constructor.
  - simpl; lia.
  - simpl; lia.
Defined.

Lemma normalize_explicit_is_affine_witness :
  normalize Sample.unit_model Sample.batch4 SampleEdges.gain2
  = map (affine SampleEdges.gain2) Sample.batch4 /\
  normalize Sample.unit_model Sample.batch4 SampleEdges.gain2
  = normalize Sample.level_model Sample.batch4 SampleEdges.gain2.
Proof.
  apply (normalize_explicit_is_affine (EventRest := nat) Sample.unit_model
           Sample.level_model SampleEdges.gain2).
  vm_compute; reflexivity.
Defined.

Lemma normalize_idempotent_real_witness :
  get_norm_params Sample.real_model (normalize Sample.real_model [1; 3]%R norm_default)
  = @mkNormParams RealArith.real_arith 0%R 1%R /\
  normalize Sample.real_model (normalize Sample.real_model [1; 3]%R norm_default)
    norm_default
  = normalize Sample.real_model [1; 3]%R norm_default.
Proof.
  apply (normalize_idempotent_real Sample.real_model [1; 3]%R).
  - simpl; lra.
  - rewrite pop_stdev_1_3; lra.
Defined.

Lemma normalize_invariant_real_witness :
  normalize Sample.real_model (map (fun x => 2 * x + 1)%R [1; 3]%R) norm_default
  = normalize Sample.real_model [1; 3]%R norm_default.
Proof.
  apply (normalize_invariant_real Sample.real_model [1; 3]%R 2 1).
  - lra.
  - rewrite pop_stdev_1_3; lra.
Defined.


Lemma aggregates_are_table_moments_real_witness :
  exists m err,
    PoreModel_load (C := SampleCodec.codec) SampleFile.KLEN SampleFile.raw SampleFile.uninit
      30 (Some SampleFile.text) false = Some (m, err) /\
    model_mean_ m = Stats.arith_mean (take 16 (lv_means_ m)) /\
    model_stdv_ m = Stats.pop_stdev (take 16 (lv_means_ m)).
Proof.
  apply (aggregates_are_table_moments_real (C := SampleCodec.codec) SampleFile.KLEN
           SampleFile.raw SampleFile.uninit 30 SampleFile.header
           SampleEdges.row_AA [SampleEdges.row_ZZ; SampleEdges.row_AC] false).
  - reflexivity.
  - repeat constructor; vm_compute; reflexivity.
  - apply (bool_decide_unpack _). vm_compute. exact I.
  - simpl; lia.
  - simpl; lia.
Defined.

Lemma construction_ignores_storage_witness :
  exists m m' err,
    PoreModel_load (C := SampleCodec.codec) SampleFile.KLEN SampleFile.raw SampleFile.uninit
      30 (Some SampleFile.text) false = Some (m, err) /\
    PoreModel_load (C := SampleCodec.codec) SampleFile.KLEN SampleEdges.raw_used
      SampleFile.uninit 30 (Some SampleFile.text) false = Some (m', err) /\
    complement_ m = false /\ complement_ m' = true /\
    k_ m = 0%Z /\ k_ m' = 5%Z /\
    lv_means_ m' = lv_means_ m /\ model_mean_ m' = model_mean_ m.
Proof.
  destruct (load_well_formed (C := SampleCodec.codec) SampleFile.KLEN SampleFile.raw
              SampleFile.uninit 30 SampleFile.header
              (ModelFile.mkFileRow "AA" "90.0" "1.0" [])
              [ModelFile.mkFileRow "ZZ" "5.0" "1.0" [];
               ModelFile.mkFileRow "AC" "95.0" "2.0" []] false
              sample_header_ok sample_rows_ok)
    as (lam & E); [simpl; lia | simpl; lia |].
  destruct (construction_ignores_storage (C := SampleCodec.codec) SampleFile.KLEN
              SampleFile.raw SampleEdges.raw_used _ _ _ _ _ _ E)
    as (Hk & Hc & m' & E' & Hk' & Hc' & Hm & _ & _ & _ & Hmean & _).
  eexists _, m', _. split; [exact E|]. split; [exact E'|].
  split; [exact Hc|]. split; [exact Hc'|]. split; [exact Hk|]. split; [exact Hk'|].
  split; [exact Hm | exact Hmean].
Defined.
